(** * sol-year: the seasonal phase cycle and the solstice locator

    A shallow embedding of [backend/app.py]: the calendar part of the
    program (solstices, the ten-phase training cycle, the phase lookup and
    the solstice counters), over a model of Python's [datetime.date].

    The display declination and the altitude are embedded over binary64
    numbers, with the [sin] of the C library as a parameter.  The day length
    and the times of sunrise and sunset, which also need [tan], [cos] and
    [acos] and the time-zone database, are not embedded.

    Part I holds the definitions: the model of [datetime], the program, and
    the vocabulary of the statements.  Part II holds the facts about them.
    Part III holds the theorems about the program, one per claim.  Part IV
    holds further properties of the program. *)

From Stdlib Require Import ZArith List Bool String Sorted Lia.
From Stdlib Require Import SpecFloat.
Import ListNotations.
Local Open Scope Z_scope.

(** * Part I: definitions *)

(** ** Exceptions and results

    A Python call either returns a value or raises; the exceptions are the
    four that the embedded code can raise. *)

Inductive exn : Type :=
| ValueError
| OverflowError
| RuntimeError
| IndexError.

Inductive result (A : Type) : Type :=
| Ok (a : A)
| Raise (e : exn).
Arguments Ok {A} a.
Arguments Raise {A} e.

Definition bind {A B : Type} (c : result A) (k : A -> result B) : result B :=
  match c with
  | Ok a => k a
  | Raise e => Raise e
  end.

Notation "x <- c ;; k" := (bind c (fun x => k))
  (at level 61, c at next level, right associativity).

(** ** Python's [datetime.date] and [datetime.timedelta]

    The part of the standard library that the program uses, after its Python
    implementation ([_pydatetime]): a date is a triple (year, month, day) of
    the proleptic Gregorian calendar with [MINYEAR <= year <= MAXYEAR];
    arithmetic goes through the ordinal of the date (0001-01-01 is day 1) and
    raises [OverflowError] when it leaves the calendar. *)

Module Datetime.

Definition MINYEAR : Z := 1.
Definition MAXYEAR : Z := 9999.
Definition MAXORDINAL : Z := 3652059.

Record date : Type := mkdate { year : Z; month : Z; day : Z }.

(** [_is_leap] *)
Definition is_leap (y : Z) : bool :=
  (y mod 4 =? 0) && (negb (y mod 100 =? 0) || (y mod 400 =? 0)).

(** [_DAYS_IN_MONTH], months 1..12 *)
Definition DAYS_IN_MONTH (m : Z) : Z :=
  match m with
  | 1 => 31 | 2 => 28 | 3 => 31 | 4 => 30 | 5 => 31 | 6 => 30
  | 7 => 31 | 8 => 31 | 9 => 30 | 10 => 31 | 11 => 30 | 12 => 31
  | _ => -1
  end.

(** [_DAYS_BEFORE_MONTH], months 1..12 *)
Definition DAYS_BEFORE_MONTH (m : Z) : Z :=
  match m with
  | 1 => 0 | 2 => 31 | 3 => 59 | 4 => 90 | 5 => 120 | 6 => 151
  | 7 => 181 | 8 => 212 | 9 => 243 | 10 => 273 | 11 => 304 | 12 => 334
  | _ => -1
  end.

Definition days_in_month (y m : Z) : Z :=
  if (m =? 2) && is_leap y then 29 else DAYS_IN_MONTH m.

Definition days_before_month (y m : Z) : Z :=
  DAYS_BEFORE_MONTH m + (if (2 <? m) && is_leap y then 1 else 0).

Definition days_before_year (y : Z) : Z :=
  let y' := y - 1 in y' * 365 + y' / 4 - y' / 100 + y' / 400.

Definition ymd2ord (y m d : Z) : Z :=
  days_before_year y + days_before_month y m + d.

Definition DI400Y : Z := 146097.
Definition DI100Y : Z := 36524.
Definition DI4Y : Z := 1461.

(** [_ord2ymd]: the proleptic Gregorian date of an ordinal. *)
Definition ord2ymd (n : Z) : date :=
  let n := n - 1 in
  let n400 := n / DI400Y in
  let n := n mod DI400Y in
  let y := n400 * 400 + 1 in
  let n100 := n / DI100Y in
  let n := n mod DI100Y in
  let n4 := n / DI4Y in
  let n := n mod DI4Y in
  let n1 := n / 365 in
  let n := n mod 365 in
  let y := y + n100 * 100 + n4 * 4 + n1 in
  if (n1 =? 4) || (n100 =? 4) then mkdate (y - 1) 12 31
  else
    let leapyear := (n1 =? 3) && (negb (n4 =? 24) || (n100 =? 3)) in
    let m := Z.shiftr (n + 50) 5 in
    let preceding :=
      DAYS_BEFORE_MONTH m + (if (2 <? m) && leapyear then 1 else 0) in
    if n <? preceding then
      let m := m - 1 in
      let preceding :=
        preceding - (DAYS_IN_MONTH m + (if (m =? 2) && leapyear then 1 else 0)) in
      mkdate y m (n - preceding + 1)
    else mkdate y m (n - preceding + 1).

(** What [_check_date_fields] accepts. *)
Definition valid_fields (y m d : Z) : bool :=
  (MINYEAR <=? y) && (y <=? MAXYEAR) &&
  (1 <=? m) && (m <=? 12) &&
  (1 <=? d) && (d <=? days_in_month y m).

Definition valid (d : date) : bool := valid_fields (year d) (month d) (day d).

(** [date(y, m, d)] *)
Definition date_new (y m d : Z) : result date :=
  if valid_fields y m d then Ok (mkdate y m d) else Raise ValueError.

Definition toordinal (d : date) : Z := ymd2ord (year d) (month d) (day d).

(** Comparison of dates is that of the triples (year, month, day). *)
Definition date_lt (a b : date) : bool :=
  (year a <? year b) ||
  ((year a =? year b) &&
   ((month a <? month b) || ((month a =? month b) && (day a <? day b)))).

Definition date_le (a b : date) : bool := negb (date_lt b a).
Definition date_gt (a b : date) : bool := date_lt b a.

(** [timedelta(days=n)]: a number of days, of magnitude at most 999999999. *)
Definition timedelta (days : Z) : result Z :=
  if (-999999999 <=? days) && (days <=? 999999999) then Ok days
  else Raise OverflowError.

(** [date + timedelta] *)
Definition date_add (d : date) (delta : Z) : result date :=
  let o := toordinal d + delta in
  if (0 <? o) && (o <=? MAXORDINAL) then Ok (ord2ymd o)
  else Raise OverflowError.

(** [date - timedelta] *)
Definition date_sub (d : date) (delta : Z) : result date := date_add d (- delta).

(** [(a - b).days] *)
Definition days_between (a b : date) : Z := toordinal a - toordinal b.

End Datetime.

Import Datetime.

(** ** Configuration of [app.py] *)

Definition WEEK : Z := 7.
Definition FIXED_DAYS : Z := 6 * WEEK.
Definition HARD_DAYS : Z := 6 * WEEK.

Definition HARD_WEEK_NAMES : list string :=
  [ "Pre-Low Week"; "Pre-Mid Week"; "Pre-Peak Week";
    "Post-Peak Week"; "Post-Mid Week"; "Post-Low Week" ]%string.

(** ** Solstices *)

Definition winter_solstice (y : Z) : result date := date_new y 12 21.

Definition summer_solstice (y : Z) : result date := date_new y 6 21.

(** Python's [max] and [min] over a sequence of dates: [ValueError] on an
    empty one, otherwise the first greatest (smallest) element. *)
Definition py_max (l : list date) : result date :=
  match l with
  | [] => Raise ValueError
  | x :: xs => Ok (fold_left (fun m s => if date_gt s m then s else m) xs x)
  end.

Definition py_min (l : list date) : result date :=
  match l with
  | [] => Raise ValueError
  | x :: xs => Ok (fold_left (fun m s => if date_lt s m then s else m) xs x)
  end.

Definition last_next_solstice (today : date) : result (date * date) :=
  s1 <- date_new (year today - 1) 6 21 ;;
  s2 <- date_new (year today - 1) 12 21 ;;
  s3 <- date_new (year today) 6 21 ;;
  s4 <- date_new (year today) 12 21 ;;
  s5 <- date_new (year today + 1) 6 21 ;;
  s6 <- date_new (year today + 1) 12 21 ;;
  let sols := [s1; s2; s3; s4; s5; s6] in
  last_sol <- py_max (filter (fun s => date_le s today) sols) ;;
  next_sol <- py_min (filter (fun s => date_gt s today) sols) ;;
  Ok (last_sol, next_sol).

Definition solstice_name (d : date) : string :=
  if month d =? 6 then "Summer"%string else "Winter"%string.

(** ** The phase model *)

Record phase : Type := mkphase {
  name : string;
  season : string;
  kind : string;
  start : date;
  end_ : date;
  pos : option string;
  variable : bool
}.

(** The helper [add] of [build_cycle]: appends the phase to [phases], unless
    it starts after its end. *)
Definition add (name season kind : string) (start end_ : date)
    (pos : option string) (variable : bool) (phases : list phase) : list phase :=
  if date_gt start end_ then phases
  else phases ++ [mkphase name season kind start end_ pos variable].

(** [d + timedelta(days=n)] and [d - timedelta(days=n)] *)
Definition plus_days (d : date) (n : Z) : result date :=
  td <- timedelta n ;; date_add d td.

Definition minus_days (d : date) (n : Z) : result date :=
  td <- timedelta n ;; date_sub d td.

(** [build_cycle], with the two module constants it reads as parameters. *)
Definition build_cycle_with (FIXED_DAYS HARD_DAYS : Z) (winter_year : Z)
  : result (list phase) :=
  ws <- winter_solstice winter_year ;;
  ss <- summer_solstice (winter_year + 1) ;;
  ws_next <- winter_solstice (winter_year + 1) ;;

  winter_hard_start <- minus_days ws 21 ;;
  winter_hard_end <- plus_days winter_hard_start (HARD_DAYS - 1) ;;

  summer_hard_start <- minus_days ss 21 ;;
  summer_hard_end <- plus_days summer_hard_start (HARD_DAYS - 1) ;;

  next_winter_hard_start <- minus_days ws_next 21 ;;

  let phases := [] in

  let phases :=
    add "Winter Hard" "Winter" "hard" winter_hard_start winter_hard_end
        None false phases in

  p <- plus_days winter_hard_end 1 ;;
  e <- plus_days p (FIXED_DAYS - 1) ;;
  let phases :=
    add "Winter Transit 1" "Winter" "transit" p e (Some "after"%string) false
        phases in
  p <- plus_days p FIXED_DAYS ;;
  e <- plus_days p (FIXED_DAYS - 1) ;;
  let phases :=
    add "Winter Transit 2" "Winter" "transit" p e (Some "after"%string) false
        phases in
  p <- plus_days p FIXED_DAYS ;;

  e <- plus_days p (FIXED_DAYS - 1) ;;
  let phases :=
    add "Summer Transit 1" "Summer" "transit" p e None false phases in
  p <- plus_days p FIXED_DAYS ;;
  e <- minus_days summer_hard_start 1 ;;
  let phases :=
    add "Summer Transit 2" "Summer" "transit" p e None true phases in

  let phases :=
    add "Summer Hard" "Summer" "hard" summer_hard_start summer_hard_end
        None false phases in

  p <- plus_days summer_hard_end 1 ;;
  e <- plus_days p (FIXED_DAYS - 1) ;;
  let phases :=
    add "Summer Transit 1" "Summer" "transit" p e None false phases in
  p <- plus_days p FIXED_DAYS ;;
  e <- plus_days p (FIXED_DAYS - 1) ;;
  let phases :=
    add "Summer Transit 2" "Summer" "transit" p e None false phases in
  p <- plus_days p FIXED_DAYS ;;

  e <- plus_days p (FIXED_DAYS - 1) ;;
  let phases :=
    add "Winter Transit 1" "Winter" "transit" p e (Some "before"%string) false
        phases in
  p <- plus_days p FIXED_DAYS ;;
  e <- minus_days next_winter_hard_start 1 ;;
  let phases :=
    add "Winter Transit 2" "Winter" "transit" p e (Some "before"%string) true
        phases in

  Ok phases.

Definition build_cycle (winter_year : Z) : result (list phase) :=
  build_cycle_with FIXED_DAYS HARD_DAYS winter_year.

(** The inner loop of [find_phase]: the first phase whose interval holds
    [today]. *)
Definition contains (today : date) (ph : phase) : bool :=
  date_le (start ph) today && date_le today (end_ ph).

Fixpoint scan_cycle (today : date) (phases : list phase) : option phase :=
  match phases with
  | [] => None
  | ph :: rest => if contains today ph then Some ph else scan_cycle today rest
  end.

(** The outer loop of [find_phase], over the winter years still to try. *)
Fixpoint find_phase_in (today : date) (wys : list Z) : result phase :=
  match wys with
  | [] => Raise RuntimeError
  | wy :: rest =>
      phases <- build_cycle wy ;;
      match scan_cycle today phases with
      | Some ph => Ok ph
      | None => find_phase_in today rest
      end
  end.

Definition find_phase (today : date) : result phase :=
  find_phase_in today [year today - 1; year today; year today + 1].

(** [find_phase], with the two module constants that [build_cycle] reads as
    parameters. *)
Fixpoint find_phase_in_with (FIXED_DAYS HARD_DAYS : Z) (today : date)
    (wys : list Z) : result phase :=
  match wys with
  | [] => Raise RuntimeError
  | wy :: rest =>
      phases <- build_cycle_with FIXED_DAYS HARD_DAYS wy ;;
      match scan_cycle today phases with
      | Some ph => Ok ph
      | None => find_phase_in_with FIXED_DAYS HARD_DAYS today rest
      end
  end.

Definition find_phase_with (FIXED_DAYS HARD_DAYS : Z) (today : date)
  : result phase :=
  find_phase_in_with FIXED_DAYS HARD_DAYS today
    [year today - 1; year today; year today + 1].

(** ** The progress block of the [/data] handler *)

(** [l[i]] for a Python list: negative indices count from the end. *)
Definition list_getitem {A : Type} (l : list A) (i : Z) : result A :=
  let n := Z.of_nat (List.length l) in
  let j := if i <? 0 then i + n else i in
  if (0 <=? j) && (j <? n) then
    match nth_error l (Z.to_nat j) with
    | Some x => Ok x
    | None => Raise IndexError
    end
  else Raise IndexError.

Definition day_index (today : date) (ph : phase) : Z :=
  days_between today (start ph).

Definition total_days (ph : phase) : Z :=
  days_between (end_ ph) (start ph) + 1.

(** The title computed by [data] for the phase found. *)
Definition data_title (today : date) (ph : phase) : result string :=
  if String.eqb (kind ph) "hard" then
    let week_idx := day_index today ph / WEEK in
    week_name <- list_getitem HARD_WEEK_NAMES week_idx ;;
    Ok (season ph ++ " · " ++ week_name)%string
  else Ok (name ph).

(** The two integers whose quotient [data] scales to the progress
    percentage: the day within the week over [WEEK] in a Hard phase, the day
    within the phase over its length otherwise. *)
Definition progress_operands (today : date) (ph : phase) : Z * Z :=
  if String.eqb (kind ph) "hard"
  then (day_index today ph mod WEEK + 1, WEEK)
  else (day_index today ph + 1, total_days ph).

(** The solstice counters of [data], before they are formatted into the
    solstice line: days from the last solstice and its name, days to the
    next one and its name. *)
Definition solstice_counters (today : date)
  : result (Z * string * Z * string) :=
  sols <- last_next_solstice today ;;
  let last_sol := fst sols in
  let next_sol := snd sols in
  let from_days := days_between today last_sol in
  let to_days := days_between next_sol today in
  Ok (from_days, solstice_name last_sol, to_days, solstice_name next_sol).

(** ** The colour classes *)

Definition bar_class (ph : phase) : string :=
  if String.eqb (kind ph) "hard" && String.eqb (season ph) "Winter"
  then "winter"%string
  else if String.eqb (kind ph) "hard" && String.eqb (season ph) "Summer"
  then "summer"%string
  else if String.eqb (season ph) "Winter" then "winter-transit"%string
  else "summer-transit"%string.

(** [ph.get("pos") == "after"] *)
Definition pos_is_after (ph : phase) : bool :=
  match pos ph with
  | Some p => String.eqb p "after"
  | None => false
  end.

Definition bg_class (ph : phase) : string :=
  if String.eqb (kind ph) "hard" && String.eqb (season ph) "Winter"
  then "bg-winter-hard"%string
  else if String.eqb (kind ph) "hard" && String.eqb (season ph) "Summer"
  then "bg-summer-hard"%string
  else if String.eqb (season ph) "Summer" then "bg-summer-transit"%string
  else if pos_is_after ph then "bg-winter-transit-after"%string
  else "bg-winter-transit-before"%string.

(** ** Python's [float] and the display declination

    A Python [float] is an IEEE 754 binary64 number; its operations round to
    nearest, ties to even.  [math.sin] calls the [sin] of the C library,
    which is a parameter here. *)

Module Binary64.

Definition prec : Z := 53.
Definition emax : Z := 1024.

Definition float : Type := spec_float.

Definition pos_zero : float := S754_zero false.

Definition is_nan (x : float) : bool :=
  match x with S754_nan => true | _ => false end.

Definition is_inf (x : float) : bool :=
  match x with S754_infinity _ => true | _ => false end.

Definition is_finite (x : float) : bool :=
  match x with S754_zero _ | S754_finite _ _ _ => true | _ => false end.

Definition fadd : float -> float -> float := SFadd prec emax.
Definition fsub : float -> float -> float := SFsub prec emax.
Definition fmul : float -> float -> float := SFmul prec emax.
Definition fdiv : float -> float -> float := SFdiv prec emax.

(** The double nearest to an integer. *)
Definition of_exact_int (z : Z) : float := binary_normalize prec emax z 0 false.

(** An [int] operand of a [float] operation: [OverflowError] when the
    integer is too large to convert. *)
Definition float_of_int (z : Z) : result float :=
  let x := of_exact_int z in
  if is_inf x then Raise OverflowError else Ok x.

(** The double nearest to [n / 10 ^ k], negated when [s]: the value of the
    decimal literal with digits [n], [k] of them after the point. *)
Definition decimal (s : bool) (n : positive) (k : Z) : float :=
  SFdiv prec emax (S754_finite s n 0) (S754_finite false (Z.to_pos (10 ^ k)) 0).

(** [Py_MATH_PI] is the literal [3.14159265358979323846]. *)
Definition Py_MATH_PI : float := decimal false 314159265358979323846 20.

(** [degToRad = Py_MATH_PI / 180.0] *)
Definition degToRad : float := fdiv Py_MATH_PI (of_exact_int 180).

(** [math.radians] *)
Definition radians (x : float) : float := fmul x degToRad.

(** [math_1], the wrapper of [math.sin] and its like around the function
    [func] of the C library. *)
Definition math_1 (func : float -> float) (can_overflow : bool) (x : float)
  : result float :=
  let r := func x in
  if is_nan r && negb (is_nan x) then Raise ValueError
  else if is_inf r && is_finite x then
    Raise (if can_overflow then OverflowError else ValueError)
  else Ok r.

(** [math.sin], over the [sin] of the C library. *)
Definition math_sin (sin : float -> float) (x : float) : result float :=
  math_1 sin false x.

(** The integer nearest to [n / d], for [0 < d]; the even one of two
    nearest. *)
Definition round_half_even (n d : Z) : Z :=
  let q := n / d in
  match 2 * (n mod d) ?= d with
  | Lt => q
  | Gt => q + 1
  | Eq => if Z.even q then q else q + 1
  end.

(** [round(x, 1)] for a float: the tenth nearest to the exact value of [x],
    then the double nearest to that tenth; zeros, infinities and nans round
    to themselves. *)
Definition round1 (x : float) : result float :=
  match x with
  | S754_finite s m e =>
      let tenths :=
        round_half_even (Zpos m * 10 * 2 ^ Z.max e 0) (2 ^ Z.max (- e) 0) in
      let rounded :=
        match tenths with
        | Zpos n => decimal s n 1
        | _ => S754_zero s
        end in
      if is_inf rounded then Raise OverflowError else Ok rounded
  | _ => Ok x
  end.

End Binary64.

Import Binary64.

Definition LATITUDE : float := decimal false 4581 2.

Definition solar_declination (sin : float -> float) (doy : Z)
  : result float :=
  x <- float_of_int (doy - 81) ;;
  s <- math_sin sin
         (radians (fmul (fdiv (of_exact_int 360) (of_exact_int 365)) x)) ;;
  Ok (fmul (decimal false 2344 2) s).

Definition sun_altitude (lat dec : float) : result float :=
  round1 (fadd (fsub (of_exact_int 90) lat) dec).

(** [d.timetuple().tm_yday] *)
Definition tm_yday (d : date) : Z :=
  days_before_month (year d) (month d) + day d.

(** The altitude computed by [data]. *)
Definition data_sun_altitude (sin : float -> float) (today : date)
  : result float :=
  let doy := tm_yday today in
  dec_deg <- solar_declination sin doy ;;
  sun_altitude LATITUDE dec_deg.

(** ** Vocabulary of the statements and of their proofs *)

Definition leap_day (y : Z) : Z := if is_leap y then 1 else 0.

(** The last steps of [_ord2ymd]: month and day from the day of the year. *)
Definition month_day (leapyear : bool) (n : Z) : Z * Z :=
  let m := Z.shiftr (n + 50) 5 in
  let preceding :=
    DAYS_BEFORE_MONTH m + (if (2 <? m) && leapyear then 1 else 0) in
  if n <? preceding then
    let m := m - 1 in
    let preceding :=
      preceding - (DAYS_IN_MONTH m + (if (m =? 2) && leapyear then 1 else 0)) in
    (m, n - preceding + 1)
  else (m, n - preceding + 1).

Definition month_day_ok (leap : bool) (n : Z) : bool :=
  let '(m, d) := month_day leap n in
  (1 <=? m) && (m <=? 12) && (1 <=? d) &&
  (d <=? DAYS_IN_MONTH m + (if (m =? 2) && leap then 1 else 0)) &&
  (DAYS_BEFORE_MONTH m + (if (2 <? m) && leap then 1 else 0) + d =? n + 1).

(** Month and day are those of a real calendar day. *)
Definition wf_day (d : date) : Prop :=
  1 <= month d <= 12 /\ 1 <= day d <= days_in_month (year d) (month d).

Definition wf_phase (ph : phase) : Prop :=
  wf_day (start ph) /\ wf_day (end_ ph).

(** Ordinals of December 21 and June 21 of year [y]. *)
Definition winter_ord (y : Z) : Z := toordinal (mkdate y 12 21).
Definition summer_ord (y : Z) : Z := toordinal (mkdate y 6 21).

(** The ten phases whose Winter Hard phase starts on ordinal [a], whose
    Summer Hard phase starts on [b], and whose successor's Winter Hard phase
    starts on [c]; [f] gives the date of an ordinal. *)
Definition phases_at (f : Z -> date) (a b c : Z) : list phase :=
  let ph nm se ki s e po va := mkphase nm se ki (f s) (f e) po va in
  [ ph "Winter Hard" "Winter" "hard" a (a + 41) None false;
    ph "Winter Transit 1" "Winter" "transit" (a + 42) (a + 83)
       (Some "after") false;
    ph "Winter Transit 2" "Winter" "transit" (a + 84) (a + 125)
       (Some "after") false;
    ph "Summer Transit 1" "Summer" "transit" (a + 126) (a + 167) None false;
    ph "Summer Transit 2" "Summer" "transit" (a + 168) (b - 1) None true;
    ph "Summer Hard" "Summer" "hard" b (b + 41) None false;
    ph "Summer Transit 1" "Summer" "transit" (b + 42) (b + 83) None false;
    ph "Summer Transit 2" "Summer" "transit" (b + 84) (b + 125) None false;
    ph "Winter Transit 1" "Winter" "transit" (b + 126) (b + 167)
       (Some "before") false;
    ph "Winter Transit 2" "Winter" "transit" (b + 168) (c - 1)
       (Some "before") true ]%string.

Definition cycle_at : Z -> Z -> Z -> list phase := phases_at ord2ymd.

Definition cycle_of (wy : Z) : list phase :=
  cycle_at (winter_ord wy - 21) (summer_ord (wy + 1) - 21)
           (winter_ord (wy + 1) - 21).

(** Start and end ordinals of a phase. *)
Definition span (ph : phase) : Z * Z :=
  (toordinal (start ph), toordinal (end_ ph)).

(** Spans laid end to end from ordinal [lo] through ordinal [hi]. *)
Fixpoint covers (lo : Z) (spans : list (Z * Z)) (hi : Z) : Prop :=
  match spans with
  | [] => lo = hi + 1
  | (s, e) :: rest => s = lo /\ covers (e + 1) rest hi
  end.

(** A phase that ends before another one starts. *)
Definition before (p q : phase) : Prop :=
  toordinal (end_ p) < toordinal (start q).

(** The anchors of a cycle are more than four fixed blocks apart. *)
Definition apart (a b c : Z) : Prop :=
  1 <= a /\ a + 168 < b /\ b + 168 < c /\ c <= MAXORDINAL.

Definition is_hard (ph : phase) : bool := String.eqb (kind ph) "hard".

(** What a phase of the built cycle can be. *)
Definition member_shape (whs shs nwhs : date) (ph : phase) : Prop :=
  (kind ph = "hard"%string /\ variable ph = false /\
   (season ph = "Winter"%string /\ start ph = whs \/
    season ph = "Summer"%string /\ start ph = shs)) \/
  (kind ph = "transit"%string /\ variable ph = false) \/
  (kind ph = "transit"%string /\ variable ph = true /\
   (season ph = "Summer"%string /\ minus_days shs 1 = Ok (end_ ph) \/
    season ph = "Winter"%string /\ minus_days nwhs 1 = Ok (end_ ph))).

(** The first and the last day for which [find_phase] can build the cycles
    it needs: 0002-01-01 and 9999-11-29. *)
Definition FIRST_DAY : date := mkdate 2 1 1.
Definition LAST_DAY : date := mkdate 9999 11 29.

(** The cycle of winter year [wy] as calendar dates; [k] is 1 when the year
    after [wy] is a leap year. *)
Definition calendar (wy : Z) : list phase :=
  let y := wy + 1 in
  let k := leap_day y in
  [ mkphase "Winter Hard" "Winter" "hard"
      (mkdate wy 11 30) (mkdate y 1 10) None false;
    mkphase "Winter Transit 1" "Winter" "transit"
      (mkdate y 1 11) (mkdate y 2 21) (Some "after") false;
    mkphase "Winter Transit 2" "Winter" "transit"
      (mkdate y 2 22) (mkdate y 4 (4 - k)) (Some "after") false;
    mkphase "Summer Transit 1" "Summer" "transit"
      (mkdate y 4 (5 - k)) (mkdate y 5 (16 - k)) None false;
    mkphase "Summer Transit 2" "Summer" "transit"
      (mkdate y 5 (17 - k)) (mkdate y 5 30) None true;
    mkphase "Summer Hard" "Summer" "hard"
      (mkdate y 5 31) (mkdate y 7 11) None false;
    mkphase "Summer Transit 1" "Summer" "transit"
      (mkdate y 7 12) (mkdate y 8 22) None false;
    mkphase "Summer Transit 2" "Summer" "transit"
      (mkdate y 8 23) (mkdate y 10 3) None false;
    mkphase "Winter Transit 1" "Winter" "transit"
      (mkdate y 10 4) (mkdate y 11 14) (Some "before") false;
    mkphase "Winter Transit 2" "Winter" "transit"
      (mkdate y 11 15) (mkdate y 11 29) (Some "before") true ]%string.

(** The solstice in the middle of a Hard phase: December 21 or June 21 of
    the year in which the phase starts. *)
Definition hard_solstice (ph : phase) : date :=
  mkdate (year (start ph))
         (if String.eqb (season ph) "Winter" then 12 else 6) 21.

Definition PRE_WEEKS : list string :=
  [ "Pre-Low Week"; "Pre-Mid Week"; "Pre-Peak Week" ]%string.

Definition POST_WEEKS : list string :=
  [ "Post-Peak Week"; "Post-Mid Week"; "Post-Low Week" ]%string.

(** The solstices around a date: the last one on or before it, the next
    one after it. *)
Definition solstice_pair (d : date) : date * date :=
  let y := year d in
  if date_lt d (mkdate y 6 21) then (mkdate (y - 1) 12 21, mkdate y 6 21)
  else if date_lt d (mkdate y 12 21) then (mkdate y 6 21, mkdate y 12 21)
  else (mkdate y 12 21, mkdate (y + 1) 6 21).

Definition is_solstice (d : date) : bool :=
  ((month d =? 6) || (month d =? 12)) && (day d =? 21).

(** The ten phases for blocks of [F] and [H] days: [phases_at] is the case
    [F = H = 42]. *)
Definition layout (f : Z -> date) (F H a b c : Z) : list phase :=
  let ph nm se ki s e po va := mkphase nm se ki (f s) (f e) po va in
  [ ph "Winter Hard" "Winter" "hard" a (a + H - 1) None false;
    ph "Winter Transit 1" "Winter" "transit" (a + H) (a + H + F - 1)
       (Some "after") false;
    ph "Winter Transit 2" "Winter" "transit" (a + H + F) (a + H + 2 * F - 1)
       (Some "after") false;
    ph "Summer Transit 1" "Summer" "transit"
       (a + H + 2 * F) (a + H + 3 * F - 1) None false;
    ph "Summer Transit 2" "Summer" "transit" (a + H + 3 * F) (b - 1)
       None true;
    ph "Summer Hard" "Summer" "hard" b (b + H - 1) None false;
    ph "Summer Transit 1" "Summer" "transit" (b + H) (b + H + F - 1)
       None false;
    ph "Summer Transit 2" "Summer" "transit"
       (b + H + F) (b + H + 2 * F - 1) None false;
    ph "Winter Transit 1" "Winter" "transit"
       (b + H + 2 * F) (b + H + 3 * F - 1) (Some "before") false;
    ph "Winter Transit 2" "Winter" "transit" (b + H + 3 * F) (c - 1)
       (Some "before") true ]%string.

(** What the two colour functions say of one phase, when they agree on its
    season and kind. *)
Definition colours_agree (ph : phase) : Prop :=
  ((kind ph = "hard" /\ season ph = "Winter" /\
   bar_class ph = "winter" /\ bg_class ph = "bg-winter-hard") \/
  (kind ph = "hard" /\ season ph = "Summer" /\
   bar_class ph = "summer" /\ bg_class ph = "bg-summer-hard") \/
  (kind ph = "transit" /\ season ph = "Winter" /\ pos ph = Some "after" /\
   bar_class ph = "winter-transit" /\
   bg_class ph = "bg-winter-transit-after") \/
  (kind ph = "transit" /\ season ph = "Winter" /\ pos ph = Some "before" /\
   bar_class ph = "winter-transit" /\
   bg_class ph = "bg-winter-transit-before") \/
  (kind ph = "transit" /\ season ph = "Summer" /\ pos ph = None /\
   bar_class ph = "summer-transit" /\
   bg_class ph = "bg-summer-transit"))%string.

(** * Part II: facts about the calendar and the program *)

Lemma bind_Ok {A B : Type} (a : A) (k : A -> result B) : bind (Ok a) k = k a.
Proof. reflexivity. Qed.

Lemma bind_Raise {A B : Type} (e : exn) (k : A -> result B) :
  bind (Raise e) k = Raise e.
Proof. reflexivity. Qed.

(** ** Facts about the calendar *)

Module DatetimeFacts.

Lemma leap_day_range y : 0 <= leap_day y <= 1.
Proof. unfold leap_day; destruct (is_leap y); lia. Qed.

Lemma days_before_year_succ y :
  days_before_year (y + 1) = days_before_year y + 365 + leap_day y.
Proof.
  unfold days_before_year, leap_day, is_leap.
  replace (y + 1 - 1) with y by lia.
  destruct (Z.eqb_spec (y mod 4) 0), (Z.eqb_spec (y mod 100) 0),
    (Z.eqb_spec (y mod 400) 0); cbn [andb orb negb];
    Z.div_mod_to_equations; lia.
Qed.

Lemma days_before_year_mono y1 y2 :
  y1 <= y2 ->
  days_before_year y1 + 365 * (y2 - y1) <= days_before_year y2.
Proof.
  intros H. unfold days_before_year.
  Z.div_mod_to_equations. lia.
Qed.

Lemma forallb_below (f : Z -> bool) (k : nat) :
  forallb f (map Z.of_nat (seq 0 k)) = true ->
  forall n, 0 <= n < Z.of_nat k -> f n = true.
Proof.
  intros H n Hn. rewrite forallb_forall in H. apply H.
  apply in_map_iff. exists (Z.to_nat n). split; [lia|].
  apply in_seq. lia.
Qed.

Lemma month_day_ok_all (leap : bool) (n : Z) :
  0 <= n < 365 + (if leap then 1 else 0) -> month_day_ok leap n = true.
Proof.
  destruct leap; intros Hn.
  - apply (forallb_below (month_day_ok true) 366);
      [vm_compute; reflexivity|lia].
  - apply (forallb_below (month_day_ok false) 365);
      [vm_compute; reflexivity|lia].
Qed.

Lemma ord2ymd_unfold n :
  ord2ymd n =
  let n0 := n - 1 in
  let a := n0 / 146097 in
  let r := n0 mod 146097 in
  let b := r / 36524 in
  let r' := r mod 36524 in
  let c := r' / 1461 in
  let r'' := r' mod 1461 in
  let e := r'' / 365 in
  let f := r'' mod 365 in
  let y := a * 400 + 1 + b * 100 + c * 4 + e in
  if (e =? 4) || (b =? 4) then mkdate (y - 1) 12 31
  else
    let '(m, d) := month_day ((e =? 3) && (negb (c =? 24) || (b =? 3))) f in
    mkdate y m d.
Proof.
  unfold ord2ymd, month_day, DI400Y, DI100Y, DI4Y. cbv zeta.
  destruct (_ || _); [reflexivity|].
  destruct (_ <? _); reflexivity.
Qed.

Lemma is_leap_parts a b c e :
  0 <= b <= 3 -> 0 <= c <= 24 -> 0 <= e <= 3 ->
  is_leap (a * 400 + 1 + b * 100 + c * 4 + e) =
  (e =? 3) && (negb (c =? 24) || (b =? 3)).
Proof.
  intros Hb Hc He. unfold is_leap.
  destruct (Z.eqb_spec e 3), (Z.eqb_spec c 24), (Z.eqb_spec b 3);
    cbn [andb orb negb];
    repeat match goal with
    | |- context [?x =? 0] => destruct (Z.eqb_spec x 0)
    end; cbn [andb orb negb]; try reflexivity;
    exfalso; Z.div_mod_to_equations; lia.
Qed.

Lemma days_before_year_parts a b c e :
  0 <= b <= 3 -> 0 <= c <= 24 -> 0 <= e <= 3 ->
  days_before_year (a * 400 + 1 + b * 100 + c * 4 + e) =
  a * 146097 + b * 36524 + c * 1461 + e * 365.
Proof.
  intros Hb Hc He. unfold days_before_year.
  Z.div_mod_to_equations. lia.
Qed.

Lemma ord2ymd_spec n :
  let d := ord2ymd n in
  toordinal d = n /\
  1 <= month d <= 12 /\ 1 <= day d <= days_in_month (year d) (month d).
Proof.
  rewrite ord2ymd_unfold. cbv zeta.
  assert (E0 := Z.div_mod (n - 1) 146097); specialize (E0 ltac:(lia)).
  assert (B0 := Z.mod_pos_bound (n - 1) 146097); specialize (B0 ltac:(lia)).
  set (a := (n - 1) / 146097) in *. set (r := (n - 1) mod 146097) in *.
  assert (E1 := Z.div_mod r 36524); specialize (E1 ltac:(lia)).
  assert (B1 := Z.mod_pos_bound r 36524); specialize (B1 ltac:(lia)).
  set (b := r / 36524) in *. set (r' := r mod 36524) in *.
  assert (E2 := Z.div_mod r' 1461); specialize (E2 ltac:(lia)).
  assert (B2 := Z.mod_pos_bound r' 1461); specialize (B2 ltac:(lia)).
  set (c := r' / 1461) in *. set (r'' := r' mod 1461) in *.
  assert (E3 := Z.div_mod r'' 365); specialize (E3 ltac:(lia)).
  assert (B3 := Z.mod_pos_bound r'' 365); specialize (B3 ltac:(lia)).
  set (e := r'' / 365) in *. set (f := r'' mod 365) in *.
  clearbody a r b r' c r'' e f.
  assert (Hb : 0 <= b <= 4) by lia.
  assert (Hc : 0 <= c <= 24) by lia.
  assert (He : 0 <= e <= 4) by lia.
  destruct (Z.eqb_spec e 4) as [He4|He4];
    [|destruct (Z.eqb_spec b 4) as [Hb4|Hb4]]; cbn [orb].
  - (* the last day of a leap year *)
    unfold toordinal, ymd2ord, days_before_month, days_in_month.
    cbn -[is_leap Z.add Z.mul Z.sub].
    replace (a * 400 + 1 + b * 100 + c * 4 + e - 1)
      with (a * 400 + 1 + b * 100 + c * 4 + 3) by lia.
    assert (b <= 3) by lia.
    rewrite days_before_year_parts, is_leap_parts by lia.
    cbn [Z.eqb Pos.eqb andb].
    destruct (Z.eqb_spec c 24), (Z.eqb_spec b 3);
      cbn [andb orb negb Z.ltb Z.compare Pos.compare Pos.compare_cont]; lia.
  - (* the last day of a 400-year cycle *)
    unfold toordinal, ymd2ord, days_before_month, days_in_month.
    cbn -[is_leap Z.add Z.mul Z.sub].
    assert (c = 0 /\ e = 0 /\ f = 0) as (-> & -> & ->) by lia. subst b.
    replace (a * 400 + 1 + 4 * 100 + 0 * 4 + 0 - 1)
      with (a * 400 + 1 + 3 * 100 + 24 * 4 + 3) by lia.
    rewrite days_before_year_parts, is_leap_parts by lia.
    cbn. lia.
  - (* any other day: month and day from the day of the year *)
    assert (b <= 3 /\ e <= 3) as [Hb3 He3] by lia.
    set (leap := (e =? 3) && (negb (c =? 24) || (b =? 3))).
    assert (Hf : 0 <= f < 365 + (if leap then 1 else 0))
      by (destruct leap; lia).
    pose proof (month_day_ok_all leap f Hf) as Hok.
    unfold month_day_ok in Hok.
    destruct (month_day leap f) as [m dd].
    rewrite !andb_true_iff in Hok.
    destruct Hok as [[[[H1 H2] H3] H4] H5].
    unfold toordinal, ymd2ord, days_before_month, days_in_month.
    cbn [year month day].
    rewrite days_before_year_parts, is_leap_parts by lia. fold leap.
    apply Z.leb_le in H1, H2, H3, H4. apply Z.eqb_eq in H5.
    clearbody leap.
    destruct (Z.eqb_spec m 2) as [->|Hm]; cbn [andb] in *.
    + change (DAYS_IN_MONTH 2) with 28 in *.
      change (DAYS_BEFORE_MONTH 2) with 31 in *.
      change (2 <? 2) with false in *. cbn [andb] in *.
      destruct leap; lia.
    + destruct ((2 <? m) && leap); lia.
Qed.

Lemma valid_inv d :
  valid d = true -> MINYEAR <= year d <= MAXYEAR /\ wf_day d.
Proof.
  unfold valid, valid_fields, wf_day. rewrite !andb_true_iff, !Z.leb_le. tauto.
Qed.

Lemma valid_intro d :
  MINYEAR <= year d <= MAXYEAR -> wf_day d -> valid d = true.
Proof.
  unfold valid, valid_fields, wf_day. rewrite !andb_true_iff, !Z.leb_le. tauto.
Qed.

Ltac month_cases m :=
  let H := fresh in
  assert (H : m = 1 \/ m = 2 \/ m = 3 \/ m = 4 \/ m = 5 \/ m = 6 \/
              m = 7 \/ m = 8 \/ m = 9 \/ m = 10 \/ m = 11 \/ m = 12) by lia;
  repeat (destruct H as [H|H]); subst m.

Lemma days_before_month_next y m m' :
  1 <= m -> m < m' -> m' <= 12 ->
  days_before_month y m + days_in_month y m <= days_before_month y m'.
Proof.
  intros H1 H2 H3. unfold days_before_month, days_in_month.
  month_cases m; month_cases m'; try lia; destruct (is_leap y); cbn; lia.
Qed.

Lemma day_of_year_range y m d :
  1 <= m <= 12 -> 1 <= d <= days_in_month y m ->
  1 <= days_before_month y m + d <= 365 + leap_day y.
Proof.
  intros Hm Hd. unfold days_before_month, days_in_month, leap_day in *.
  month_cases m; destruct (is_leap y); cbn -[Z.add] in *; lia.
Qed.

Lemma toordinal_year_bounds d :
  wf_day d ->
  days_before_year (year d) < toordinal d <= days_before_year (year d + 1).
Proof.
  intros [Hm Hd]. unfold toordinal, ymd2ord.
  rewrite days_before_year_succ.
  pose proof (day_of_year_range _ _ _ Hm Hd). lia.
Qed.

Lemma date_lt_toordinal a b :
  wf_day a -> wf_day b -> date_lt a b = (toordinal a <? toordinal b).
Proof.
  intros Ha Hb.
  pose proof (toordinal_year_bounds a Ha) as Ba.
  pose proof (toordinal_year_bounds b Hb) as Bb.
  destruct Ha as [Ham Had], Hb as [Hbm Hbd].
  unfold date_lt.
  destruct (Z.ltb_spec (year a) (year b)) as [Hy|Hy]; cbn [orb].
  { pose proof (days_before_year_mono (year a + 1) (year b)).
    symmetry; apply Z.ltb_lt; lia. }
  destruct (Z.eqb_spec (year a) (year b)) as [Ey|Ey]; cbn [andb].
  2:{ pose proof (days_before_year_mono (year b + 1) (year a)).
      symmetry; apply Z.ltb_ge; lia. }
  unfold toordinal, ymd2ord in *. rewrite Ey in *.
  destruct (Z.ltb_spec (month a) (month b)) as [Hmo|Hmo]; cbn [orb].
  { pose proof (days_before_month_next (year b) (month a) (month b)).
    symmetry; apply Z.ltb_lt; lia. }
  destruct (Z.eqb_spec (month a) (month b)) as [Em|Em]; cbn [andb].
  2:{ pose proof (days_before_month_next (year b) (month b) (month a)).
      symmetry; apply Z.ltb_ge; lia. }
  rewrite Em.
  destruct (Z.ltb_spec (day a) (day b)); symmetry;
    [apply Z.ltb_lt|apply Z.ltb_ge]; lia.
Qed.

Lemma date_le_toordinal a b :
  wf_day a -> wf_day b -> date_le a b = (toordinal a <=? toordinal b).
Proof.
  intros Ha Hb. unfold date_le. rewrite (date_lt_toordinal b a Hb Ha).
  destruct (Z.ltb_spec (toordinal b) (toordinal a)),
    (Z.leb_spec (toordinal a) (toordinal b)); cbn; lia || reflexivity.
Qed.

Lemma date_gt_toordinal a b :
  wf_day a -> wf_day b -> date_gt a b = (toordinal b <? toordinal a).
Proof. intros Ha Hb. unfold date_gt. now apply date_lt_toordinal. Qed.

Lemma toordinal_ord2ymd n : toordinal (ord2ymd n) = n.
Proof. apply (ord2ymd_spec n). Qed.

Lemma wf_day_ord2ymd n : wf_day (ord2ymd n).
Proof. apply (ord2ymd_spec n). Qed.

(** Dates with the same ordinal are the same date. *)
Lemma toordinal_inj a b :
  wf_day a -> wf_day b -> toordinal a = toordinal b -> a = b.
Proof.
  intros Ha Hb E.
  pose proof (date_lt_toordinal a b Ha Hb) as Hab.
  pose proof (date_lt_toordinal b a Hb Ha) as Hba.
  rewrite E, Z.ltb_irrefl in Hab, Hba. unfold date_lt in Hab, Hba.
  destruct a as [ya ma da], b as [yb mb db]. cbn [year month day] in *.
  destruct (Z.ltb_spec ya yb), (Z.ltb_spec yb ya), (Z.eqb_spec ya yb),
    (Z.eqb_spec yb ya), (Z.ltb_spec ma mb), (Z.ltb_spec mb ma),
    (Z.eqb_spec ma mb), (Z.eqb_spec mb ma), (Z.ltb_spec da db),
    (Z.ltb_spec db da); cbn in Hab, Hba; try discriminate; try lia.
  f_equal; lia.
Qed.

Lemma ord2ymd_toordinal d : wf_day d -> ord2ymd (toordinal d) = d.
Proof.
  intros Hd. apply toordinal_inj;
    [apply wf_day_ord2ymd|assumption|apply toordinal_ord2ymd].
Qed.

Lemma days_before_year_MINYEAR : days_before_year MINYEAR = 0.
Proof. reflexivity. Qed.

Lemma days_before_year_past_MAXYEAR :
  days_before_year (MAXYEAR + 1) = MAXORDINAL.
Proof. reflexivity. Qed.

(** A date is determined by its ordinal. *)
Lemma toordinal_year d y :
  wf_day d ->
  days_before_year y < toordinal d <= days_before_year (y + 1) ->
  year d = y.
Proof.
  intros Hd Hy. pose proof (toordinal_year_bounds d Hd) as B.
  destruct (Z.lt_trichotomy (year d) y) as [H|[H|H]]; [|assumption|].
  - pose proof (days_before_year_mono (year d + 1) y). lia.
  - pose proof (days_before_year_mono (y + 1) (year d)). lia.
Qed.

Lemma year_ord2ymd_range n :
  1 <= n <= MAXORDINAL -> MINYEAR <= year (ord2ymd n) <= MAXYEAR.
Proof.
  intros Hn.
  pose proof (toordinal_year_bounds _ (wf_day_ord2ymd n)) as B.
  rewrite toordinal_ord2ymd in B.
  pose proof (days_before_year_mono (year (ord2ymd n) + 1) MINYEAR).
  pose proof (days_before_year_mono (MAXYEAR + 1) (year (ord2ymd n))).
  rewrite days_before_year_MINYEAR, days_before_year_past_MAXYEAR in *.
  unfold MINYEAR, MAXYEAR, MAXORDINAL in *. lia.
Qed.

Lemma valid_ord2ymd n : 1 <= n <= MAXORDINAL -> valid (ord2ymd n) = true.
Proof.
  intros Hn. apply valid_intro;
    [now apply year_ord2ymd_range|apply wf_day_ord2ymd].
Qed.

Lemma toordinal_range d : valid d = true -> 1 <= toordinal d <= MAXORDINAL.
Proof.
  intros Hv. apply valid_inv in Hv as [Hy Hd].
  pose proof (toordinal_year_bounds d Hd) as B.
  pose proof (days_before_year_mono MINYEAR (year d)).
  pose proof (days_before_year_mono (year d + 1) (MAXYEAR + 1)).
  rewrite days_before_year_MINYEAR, days_before_year_past_MAXYEAR in *.
  unfold MINYEAR, MAXYEAR, MAXORDINAL in *. lia.
Qed.

End DatetimeFacts.

Import DatetimeFacts.

(** ** Computing with dates *)

Section Dates.

Lemma winter_ord_eq y : winter_ord y = days_before_year (y + 1) - 10.
Proof.
  rewrite days_before_year_succ.
  unfold winter_ord, toordinal, ymd2ord, days_before_month, leap_day.
  cbn -[Z.add Z.sub is_leap days_before_year]. destruct (is_leap y); lia.
Qed.

Lemma summer_ord_eq y : summer_ord y = days_before_year (y + 1) - 193.
Proof.
  rewrite days_before_year_succ.
  unfold summer_ord, toordinal, ymd2ord, days_before_month, leap_day.
  cbn -[Z.add Z.sub is_leap days_before_year]. destruct (is_leap y); lia.
Qed.

Lemma wf_day_december_21 y : wf_day (mkdate y 12 21).
Proof. unfold wf_day, days_in_month. cbn. lia. Qed.

Lemma wf_day_june_21 y : wf_day (mkdate y 6 21).
Proof. unfold wf_day, days_in_month. cbn. lia. Qed.

Lemma date_new_solstice y m :
  m = 6 \/ m = 12 ->
  date_new y m 21 =
  if (MINYEAR <=? y) && (y <=? MAXYEAR) then Ok (mkdate y m 21)
  else Raise ValueError.
Proof.
  intros [-> | ->]; unfold date_new, valid_fields, days_in_month;
    cbn -[Z.leb MINYEAR MAXYEAR];
    destruct ((MINYEAR <=? y) && (y <=? MAXYEAR)); reflexivity.
Qed.

Lemma date_new_solstice_ok y m :
  m = 6 \/ m = 12 -> MINYEAR <= y <= MAXYEAR ->
  date_new y m 21 = Ok (mkdate y m 21).
Proof.
  intros Hm Hy. rewrite date_new_solstice by assumption.
  destruct (Z.leb_spec MINYEAR y), (Z.leb_spec y MAXYEAR); try lia.
  reflexivity.
Qed.

Lemma date_new_out_of_range y m d :
  y < MINYEAR \/ MAXYEAR < y -> date_new y m d = Raise ValueError.
Proof.
  intros Hy. unfold date_new, valid_fields.
  destruct (Z.leb_spec MINYEAR y), (Z.leb_spec y MAXYEAR); try lia; reflexivity.
Qed.

Lemma date_new_inv y m dd d :
  date_new y m dd = Ok d -> d = mkdate y m dd /\ MINYEAR <= y <= MAXYEAR.
Proof.
  unfold date_new. destruct (valid_fields y m dd) eqn:Hv; [|discriminate].
  intros [= <-]. split; [reflexivity|].
  apply (valid_inv (mkdate y m dd)) in Hv. apply Hv.
Qed.

Lemma date_new_raises y m dd e : date_new y m dd = Raise e -> e = ValueError.
Proof.
  unfold date_new. destruct (valid_fields y m dd); [discriminate|].
  now intros [= <-].
Qed.

Lemma winter_solstice_ok y :
  MINYEAR <= y <= MAXYEAR -> winter_solstice y = Ok (mkdate y 12 21).
Proof. intros Hy. apply date_new_solstice_ok; auto. Qed.

Lemma summer_solstice_ok y :
  MINYEAR <= y <= MAXYEAR -> summer_solstice y = Ok (mkdate y 6 21).
Proof. intros Hy. apply date_new_solstice_ok; auto. Qed.

Lemma plus_days_ok d n :
  -999999999 <= n <= 999999999 ->
  1 <= toordinal d + n <= MAXORDINAL ->
  plus_days d n = Ok (ord2ymd (toordinal d + n)).
Proof.
  intros Hn Ho. unfold plus_days, timedelta, date_add.
  destruct (Z.leb_spec (-999999999) n), (Z.leb_spec n 999999999); try lia.
  cbn [andb bind].
  destruct (Z.ltb_spec 0 (toordinal d + n)),
    (Z.leb_spec (toordinal d + n) MAXORDINAL); try lia. reflexivity.
Qed.

Lemma minus_days_ok d n :
  -999999999 <= n <= 999999999 ->
  1 <= toordinal d - n <= MAXORDINAL ->
  minus_days d n = Ok (ord2ymd (toordinal d - n)).
Proof.
  intros Hn Ho. unfold minus_days, timedelta, date_sub, date_add.
  destruct (Z.leb_spec (-999999999) n), (Z.leb_spec n 999999999); try lia.
  cbn [andb bind]. replace (toordinal d + - n) with (toordinal d - n) by lia.
  destruct (Z.ltb_spec 0 (toordinal d - n)),
    (Z.leb_spec (toordinal d - n) MAXORDINAL); try lia. reflexivity.
Qed.

Lemma plus_days_inv d n d' :
  plus_days d n = Ok d' ->
  d' = ord2ymd (toordinal d + n) /\
  -999999999 <= n <= 999999999 /\ 1 <= toordinal d + n <= MAXORDINAL.
Proof.
  unfold plus_days, timedelta, date_add.
  destruct (Z.leb_spec (-999999999) n), (Z.leb_spec n 999999999);
    cbn [andb bind]; try discriminate.
  destruct (Z.ltb_spec 0 (toordinal d + n)),
    (Z.leb_spec (toordinal d + n) MAXORDINAL); cbn [andb]; try discriminate.
  intros [= <-]. repeat split; lia.
Qed.

Lemma minus_days_inv d n d' :
  minus_days d n = Ok d' ->
  d' = ord2ymd (toordinal d - n) /\
  -999999999 <= n <= 999999999 /\ 1 <= toordinal d - n <= MAXORDINAL.
Proof.
  unfold minus_days, timedelta, date_sub, date_add.
  destruct (Z.leb_spec (-999999999) n), (Z.leb_spec n 999999999);
    cbn [andb bind]; try discriminate.
  replace (toordinal d + - n) with (toordinal d - n) by lia.
  destruct (Z.ltb_spec 0 (toordinal d - n)),
    (Z.leb_spec (toordinal d - n) MAXORDINAL); cbn [andb]; try discriminate.
  intros [= <-]. repeat split; lia.
Qed.

Lemma plus_days_raises d n e : plus_days d n = Raise e -> e = OverflowError.
Proof.
  unfold plus_days, timedelta, date_add.
  destruct ((-999999999 <=? n) && (n <=? 999999999)); cbn [bind];
    [|now intros [= <-]].
  destruct ((0 <? toordinal d + n) && (toordinal d + n <=? MAXORDINAL));
    [discriminate|now intros [= <-]].
Qed.

Lemma minus_days_raises d n e : minus_days d n = Raise e -> e = OverflowError.
Proof.
  unfold minus_days, timedelta, date_sub, date_add.
  destruct ((-999999999 <=? n) && (n <=? 999999999)); cbn [bind];
    [|now intros [= <-]].
  destruct ((0 <? toordinal d + - n) && (toordinal d + - n <=? MAXORDINAL));
    [discriminate|now intros [= <-]].
Qed.

End Dates.

(** ** The ten phases laid out from three anchors *)

(** Enumerates the phases of a list given by [phases_at]. *)
Ltac in_phases_at H :=
  unfold phases_at in H; cbn [In] in H;
  repeat (destruct H as [H|H]); try contradiction.

Section PhasesAt.

(** The date of an ordinal, kept abstract in this section. *)
Variable f : Z -> date.
Hypothesis f_ord2ymd : forall n, f n = ord2ymd n.

Variables a b c : Z.

Lemma f_ord n : toordinal (f n) = n.
Proof. rewrite f_ord2ymd. apply toordinal_ord2ymd. Qed.

Lemma f_wf n : wf_day (f n).
Proof. rewrite f_ord2ymd. apply wf_day_ord2ymd. Qed.

Lemma spans_phases_at :
  map span (phases_at f a b c) =
  [ (a, a + 41); (a + 42, a + 83); (a + 84, a + 125); (a + 126, a + 167);
    (a + 168, b - 1); (b, b + 41); (b + 42, b + 83); (b + 84, b + 125);
    (b + 126, b + 167); (b + 168, c - 1) ].
Proof.
  unfold phases_at, span. cbn [map start end_].
  rewrite !f_ord. reflexivity.
Qed.

Lemma wf_phases_at : Forall wf_phase (phases_at f a b c).
Proof.
  unfold phases_at. repeat (apply Forall_cons; [split; apply f_wf|]).
  apply Forall_nil.
Qed.

Lemma wf_in_phases_at ph :
  In ph (phases_at f a b c) -> wf_day (start ph) /\ wf_day (end_ ph).
Proof. apply (proj1 (Forall_forall _ _) wf_phases_at). Qed.

Lemma contiguous_phases_at i p q :
  apart a b c ->
  nth_error (phases_at f a b c) i = Some p ->
  nth_error (phases_at f a b c) (S i) = Some q ->
  plus_days (end_ p) 1 = Ok (start q).
Proof.
  intros (a_pos & ab & bc & c_max) Hp Hq. unfold phases_at in Hp, Hq.
  do 10 (destruct i as [|i];
    [ cbn [nth_error] in Hp, Hq; try discriminate;
      injection Hp as <-; injection Hq as <-; cbn [start end_];
      rewrite plus_days_ok by (rewrite ?f_ord; lia);
      rewrite f_ord, f_ord2ymd; do 2 f_equal; lia
    | ]).
  cbn [nth_error] in Hp. destruct i; discriminate.
Qed.

Lemma ordered_phases_at i j p q :
  apart a b c -> (i < j)%nat ->
  nth_error (phases_at f a b c) i = Some p ->
  nth_error (phases_at f a b c) j = Some q ->
  toordinal (end_ p) < toordinal (start q).
Proof.
  intros (a_pos & ab & bc & c_max) Hij Hp Hq.
  apply (map_nth_error span) in Hp, Hq.
  rewrite spans_phases_at in Hp, Hq. unfold span in Hp, Hq.
  do 10 (destruct i as [|i];
    [ cbn [nth_error] in Hp; injection Hp as ? ?;
      do 10 (destruct j as [|j];
        [ first [ lia | cbn [nth_error] in Hq; injection Hq as ? ?; lia ]
        | ]);
      cbn [nth_error] in Hq; destruct j; discriminate
    | ]).
  cbn [nth_error] in Hp. destruct i; discriminate.
Qed.

Lemma nondegenerate_phases_at p :
  apart a b c ->
  In p (phases_at f a b c) -> toordinal (start p) <= toordinal (end_ p).
Proof.
  intros (a_pos & ab & bc & c_max) Hin. in_phases_at Hin; subst p; cbn [start end_];
    rewrite !f_ord; lia.
Qed.

Lemma covers_phases_at : covers a (map span (phases_at f a b c)) (c - 1).
Proof. rewrite spans_phases_at. cbn [covers]. repeat split; lia. Qed.

Lemma sorted_phases_at :
  apart a b c -> StronglySorted before (phases_at f a b c).
Proof.
  intros (a_pos & ab & bc & c_max). unfold phases_at.
  repeat (apply SSorted_cons;
    [|repeat (apply Forall_cons;
        [unfold before; cbn [start end_]; rewrite !f_ord; lia|]);
      apply Forall_nil]).
  apply SSorted_nil.
Qed.

Lemma in_phases_at_range ph :
  apart a b c ->
  In ph (phases_at f a b c) ->
  a <= toordinal (start ph) /\ toordinal (end_ ph) < c.
Proof.
  intros (a_pos & ab & bc & c_max) Hin. in_phases_at Hin; subst ph; cbn [start end_];
    rewrite !f_ord; lia.
Qed.

(** The Hard phases and the fixed Transit phases. *)
Lemma fixed_phases_at ph :
  In ph (phases_at f a b c) ->
  (kind ph = "hard"%string ->
   total_days ph = 42 /\
   (season ph = "Winter"%string /\ start ph = f a /\ end_ ph = f (a + 41) \/
    season ph = "Summer"%string /\ start ph = f b /\ end_ ph = f (b + 41))) /\
  (kind ph = "transit"%string -> variable ph = false -> total_days ph = 42).
Proof.
  intros Hin. in_phases_at Hin; subst ph; unfold total_days, days_between;
    cbn [kind variable season start end_]; rewrite !f_ord;
    (split; [intros Hk; try discriminate Hk
            |intros Hk Hv; try discriminate; lia]).
  - split; [lia|]. left. repeat split.
  - split; [lia|]. right. repeat split.
Qed.

Lemma hard_phases_at :
  filter is_hard (phases_at f a b c) =
  [ mkphase "Winter Hard" "Winter" "hard" (f a) (f (a + 41)) None false;
    mkphase "Summer Hard" "Summer" "hard" (f b) (f (b + 41)) None false ].
Proof. reflexivity. Qed.

(** The two variable phases. *)
Lemma variable_phases_at :
  filter variable (phases_at f a b c) =
  [ mkphase "Summer Transit 2" "Summer" "transit" (f (a + 168)) (f (b - 1))
      None true;
    mkphase "Winter Transit 2" "Winter" "transit" (f (b + 168)) (f (c - 1))
      (Some "before"%string) true ].
Proof. reflexivity. Qed.

Lemma hard_day_index_phases_at d ph :
  In ph (phases_at f a b c) -> kind ph = "hard"%string ->
  toordinal (start ph) <= toordinal d <= toordinal (end_ ph) ->
  0 <= day_index d ph <= 41.
Proof.
  intros Hin Hk. unfold day_index, days_between.
  in_phases_at Hin; subst ph; try discriminate Hk;
    cbn [start end_]; rewrite !f_ord; lia.
Qed.

End PhasesAt.

(** ** The cycle that [build_cycle] returns *)

(** One step of a computation on dates, its range conditions left to [side]. *)
Ltac run_days side :=
  lazymatch goal with
  | |- bind (plus_days ?d ?n) _ = _ =>
      rewrite (plus_days_ok d n) by side; rewrite bind_Ok; cbv beta
  | |- bind (minus_days ?d ?n) _ = _ =>
      rewrite (minus_days_ok d n) by side; rewrite bind_Ok; cbv beta
  end.

Section BuiltCycle.

Variable wy : Z.

(** The cycle of winter year [wy] starts on November 30 of that year. *)
Lemma cycle_start_eq : winter_ord wy - 21 = days_before_year (wy + 1) - 31.
Proof. rewrite winter_ord_eq. lia. Qed.

Hypothesis wy_min : MINYEAR <= wy.
Hypothesis wy_max : wy + 1 <= MAXYEAR.

(** Where the three anchors of the cycle lie. *)
Lemma anchors :
  let a := winter_ord wy - 21 in
  let b := summer_ord (wy + 1) - 21 in
  let c := winter_ord (wy + 1) - 21 in
  334 <= a /\ 182 <= b - a <= 183 /\ c - b = 183 /\ c + 31 <= MAXORDINAL.
Proof.
  cbv zeta. rewrite !winter_ord_eq, summer_ord_eq.
  pose proof (days_before_year_succ (wy + 1)) as E.
  pose proof (leap_day_range (wy + 1)).
  replace (wy + 1 + 1) with (wy + 2) in * by lia.
  pose proof (days_before_year_mono MINYEAR (wy + 1)).
  pose proof (days_before_year_mono (wy + 2) (MAXYEAR + 1)).
  rewrite days_before_year_MINYEAR, days_before_year_past_MAXYEAR in *.
  unfold MINYEAR, MAXYEAR, MAXORDINAL in *. lia.
Qed.

Lemma anchors_apart :
  apart (winter_ord wy - 21) (summer_ord (wy + 1) - 21)
        (winter_ord (wy + 1) - 21).
Proof. pose proof anchors as A. unfold apart. cbv zeta in *. lia. Qed.

Lemma add_keeps nm se ki s e po va phases :
  toordinal s <= toordinal e -> wf_day s -> wf_day e ->
  add nm se ki s e po va phases = phases ++ [mkphase nm se ki s e po va].
Proof.
  intros H Hs He. unfold add.
  rewrite date_gt_toordinal by assumption.
  destruct (Z.ltb_spec (toordinal e) (toordinal s)); [lia|reflexivity].
Qed.

Lemma phase_ord_eq nm se ki po va s s' e e' :
  s = s' -> e = e' ->
  mkphase nm se ki (ord2ymd s) (ord2ymd e) po va =
  mkphase nm se ki (ord2ymd s') (ord2ymd e') po va.
Proof. now intros -> ->. Qed.

Lemma build_cycle_ok : build_cycle wy = Ok (cycle_of wy).
Proof.
  pose proof anchors as A. cbv zeta in A.
  unfold cycle_of, build_cycle, build_cycle_with.
  change (HARD_DAYS - 1) with 41. change (FIXED_DAYS - 1) with 41.
  change FIXED_DAYS with 42.
  rewrite (winter_solstice_ok wy), (summer_solstice_ok (wy + 1)),
    (winter_solstice_ok (wy + 1))
    by (pose proof wy_min; pose proof wy_max; unfold MINYEAR, MAXYEAR in *; lia).
  rewrite !bind_Ok. cbv beta zeta.
  assert (Ea : toordinal (mkdate wy 12 21) = winter_ord wy - 21 + 21)
    by (unfold winter_ord; lia).
  assert (Eb : toordinal (mkdate (wy + 1) 6 21) = summer_ord (wy + 1) - 21 + 21)
    by (unfold summer_ord; lia).
  assert (Ec : toordinal (mkdate (wy + 1) 12 21) = winter_ord (wy + 1) - 21 + 21)
    by (unfold winter_ord; lia).
  set (a := winter_ord wy - 21) in *.
  set (b := summer_ord (wy + 1) - 21) in *.
  set (c := winter_ord (wy + 1) - 21) in *.
  clearbody a b c. unfold MAXORDINAL in A.
  repeat (run_days
    ltac:(rewrite ?Ea, ?Eb, ?Ec, ?toordinal_ord2ymd; unfold MAXORDINAL; lia);
    rewrite ?Ea, ?Eb, ?Ec, ?toordinal_ord2ymd).
  repeat (rewrite add_keeps
    by (rewrite ?toordinal_ord2ymd; first [lia | apply wf_day_ord2ymd])).
  cbn [app]. unfold cycle_at, phases_at.
  apply f_equal.
  repeat (apply (f_equal2 cons); [apply phase_ord_eq; lia|]).
  reflexivity.
Qed.

End BuiltCycle.

Lemma build_cycle_out_of_range wy :
  wy < MINYEAR \/ MAXYEAR < wy + 1 -> build_cycle wy = Raise ValueError.
Proof.
  intros H. unfold build_cycle, build_cycle_with.
  destruct (Z.eq_dec wy MAXYEAR) as [->|Hne].
  - rewrite (winter_solstice_ok MAXYEAR) by (unfold MINYEAR, MAXYEAR; lia).
    rewrite bind_Ok. unfold summer_solstice.
    rewrite date_new_out_of_range by (unfold MINYEAR, MAXYEAR; lia).
    apply bind_Raise.
  - unfold winter_solstice.
    rewrite date_new_out_of_range by (unfold MINYEAR, MAXYEAR in *; lia).
    apply bind_Raise.
Qed.

Lemma build_cycle_inv wy l :
  build_cycle wy = Ok l ->
  (MINYEAR <= wy /\ wy + 1 <= MAXYEAR) /\ l = cycle_of wy.
Proof.
  intros H.
  destruct (Z_lt_dec wy MINYEAR) as [Hlo|Hlo];
    [rewrite build_cycle_out_of_range in H by lia; discriminate|].
  destruct (Z_lt_dec MAXYEAR (wy + 1)) as [Hhi|Hhi];
    [rewrite build_cycle_out_of_range in H by lia; discriminate|].
  rewrite build_cycle_ok in H by lia. split; [lia|congruence].
Qed.

(** ** The phase lookup *)

Section Lookup.

Lemma contains_ordinals d ph :
  wf_day d -> wf_phase ph ->
  contains d ph = true <->
  toordinal (start ph) <= toordinal d <= toordinal (end_ ph).
Proof.
  intros Hd [Hs He]. unfold contains.
  rewrite !date_le_toordinal, andb_true_iff, !Z.leb_le by assumption.
  reflexivity.
Qed.

Lemma scan_cycle_Some d l ph :
  scan_cycle d l = Some ph -> In ph l /\ contains d ph = true.
Proof.
  induction l as [|q l IH]; cbn [scan_cycle]; [discriminate|].
  destruct (contains d q) eqn:Hq.
  - intros [= <-]. split; [now left|assumption].
  - intros H. destruct (IH H). split; [now right|assumption].
Qed.

Lemma scan_cycle_covers d l : forall lo hi,
  covers lo (map span l) hi -> Forall wf_phase l -> wf_day d ->
  lo <= toordinal d <= hi ->
  exists ph, scan_cycle d l = Some ph.
Proof.
  induction l as [|q l IH]; intros lo hi Hc Hwf Hd Hr; cbn in Hc; [lia|].
  destruct Hc as [Hs Hc]. inversion Hwf as [|? ? Hq Hwf']; subst.
  cbn [scan_cycle]. destruct (contains d q) eqn:Hcq; [now exists q|].
  apply (IH _ _ Hc Hwf' Hd).
  destruct (Z_le_dec (toordinal d) (toordinal (end_ q))) as [Hle|Hgt]; [|lia].
  assert (contains d q = true) by (apply contains_ordinals; auto; lia).
  congruence.
Qed.

Lemma scan_cycle_sorted d l ph :
  StronglySorted before l -> Forall wf_phase l -> wf_day d ->
  In ph l -> contains d ph = true -> scan_cycle d l = Some ph.
Proof.
  intros Hs Hwf Hd. induction Hs as [|q l Hs IH Hq]; cbn [In scan_cycle];
    [contradiction|].
  inversion Hwf as [|? ? Hwq Hwf']; subst.
  intros [<-|Hin] Hc; [now rewrite Hc|].
  destruct (contains d q) eqn:Hcq; [|now apply IH].
  rewrite Forall_forall in Hq, Hwf'. specialize (Hq _ Hin).
  specialize (Hwf' _ Hin). unfold before in Hq.
  apply contains_ordinals in Hc, Hcq; auto. lia.
Qed.

Lemma wf_cycle_of wy : Forall wf_phase (cycle_of wy).
Proof. apply (wf_phases_at ord2ymd (fun n => eq_refl)). Qed.

(** The days of the phases of a cycle: from November 30 of the winter year
    to November 29 of the next year. *)
Lemma cycle_of_range d wy ph :
  MINYEAR <= wy -> wy + 1 <= MAXYEAR -> wf_day d ->
  In ph (cycle_of wy) -> contains d ph = true ->
  days_before_year (wy + 1) - 31 <= toordinal d < days_before_year (wy + 2) - 31.
Proof.
  intros H1 H2 Hd Hin Hc.
  pose proof (in_phases_at_range ord2ymd (fun n => eq_refl) _ _ _ ph
                (anchors_apart wy H1 H2) Hin) as R.
  rewrite !cycle_start_eq in R.
  replace (wy + 1 + 1) with (wy + 2) in R by lia.
  apply contains_ordinals in Hc; auto.
  - lia.
  - exact (proj1 (Forall_forall _ _) (wf_cycle_of wy) ph Hin).
Qed.

Lemma scan_cycle_of_found d wy :
  wf_day d ->
  days_before_year (wy + 1) - 31 <= toordinal d < days_before_year (wy + 2) - 31 ->
  exists ph, scan_cycle d (cycle_of wy) = Some ph.
Proof.
  intros Hd Hr.
  apply (scan_cycle_covers d _ _ _
           (covers_phases_at ord2ymd (fun n => eq_refl) _ _ _)
           (wf_cycle_of wy) Hd).
  rewrite !cycle_start_eq. replace (wy + 1 + 1) with (wy + 2) by lia. lia.
Qed.

Lemma scan_cycle_of_missed d wy :
  MINYEAR <= wy -> wy + 1 <= MAXYEAR -> wf_day d ->
  toordinal d < days_before_year (wy + 1) - 31 \/
  days_before_year (wy + 2) - 31 <= toordinal d ->
  scan_cycle d (cycle_of wy) = None.
Proof.
  intros H1 H2 Hd Hr.
  destruct (scan_cycle d (cycle_of wy)) as [ph|] eqn:E; [|reflexivity].
  apply scan_cycle_Some in E as [Hin Hc].
  pose proof (cycle_of_range _ _ _ H1 H2 Hd Hin Hc). lia.
Qed.

(** A day lies in a phase of one cycle only, and in one phase of it. *)
Lemma phase_of_day_unique d wy wy' ph ph' :
  MINYEAR <= wy -> wy + 1 <= MAXYEAR ->
  MINYEAR <= wy' -> wy' + 1 <= MAXYEAR -> wf_day d ->
  scan_cycle d (cycle_of wy) = Some ph ->
  In ph' (cycle_of wy') -> contains d ph' = true -> ph' = ph.
Proof.
  intros H1 H2 H1' H2' Hd Hscan Hin' Hc'.
  destruct (scan_cycle_Some _ _ _ Hscan) as [Hin Hc].
  pose proof (cycle_of_range _ _ _ H1 H2 Hd Hin Hc) as R.
  pose proof (cycle_of_range _ _ _ H1' H2' Hd Hin' Hc') as R'.
  assert (wy' = wy) as ->.
  { destruct (Z.lt_trichotomy wy' wy) as [Hlt|[Heq|Hgt]]; [|assumption|].
    - pose proof (days_before_year_mono (wy' + 2) (wy + 1)). lia.
    - pose proof (days_before_year_mono (wy + 2) (wy' + 1)). lia. }
  pose proof (scan_cycle_sorted d (cycle_of wy) ph'
                (sorted_phases_at ord2ymd (fun n => eq_refl) _ _ _
                   (anchors_apart wy H1 H2))
                (wf_cycle_of wy) Hd Hin' Hc').
  congruence.
Qed.

Lemma year_from_ordinal d :
  wf_day d ->
  days_before_year (year d) < toordinal d <= days_before_year (year d + 1) /\
  days_before_year (year d) + 365 <= days_before_year (year d + 1) /\
  days_before_year (year d + 1) + 365 <= days_before_year (year d + 2).
Proof.
  intros Hd. split; [now apply toordinal_year_bounds|].
  pose proof (days_before_year_mono (year d) (year d + 1)).
  pose proof (days_before_year_mono (year d + 1) (year d + 2)). lia.
Qed.

End Lookup.

Section FindPhase.

Variable d : date.
Hypothesis d_valid : valid d = true.

Lemma find_phase_run :
  toordinal FIRST_DAY <= toordinal d <= toordinal LAST_DAY ->
  exists wy ph,
    (MINYEAR <= wy /\ wy + 1 <= MAXYEAR) /\
    scan_cycle d (cycle_of wy) = Some ph /\ find_phase d = Ok ph.
Proof.
  intros Hr. pose proof (valid_inv d d_valid) as [Hy Hd].
  change (toordinal FIRST_DAY) with 366 in Hr.
  change (toordinal LAST_DAY) with 3652027 in Hr.
  destruct (year_from_ordinal d Hd) as (B & B1 & B2).
  unfold find_phase, find_phase_in.
  set (y := year d) in *. clearbody y.
  pose proof (days_before_year_mono (y + 1) 2) as M2.
  change (days_before_year 2) with 365 in M2.
  unfold MINYEAR, MAXYEAR in Hy.
  assert (Hy2 : 2 <= y) by lia.
  rewrite (build_cycle_ok (y - 1)) by (unfold MINYEAR, MAXYEAR; lia).
  rewrite bind_Ok.
  destruct (Z_lt_dec (toordinal d) (days_before_year (y + 1) - 31))
    as [Hlt|Hge].
  - destruct (scan_cycle_of_found d (y - 1) Hd) as [ph Hph].
    { replace (y - 1 + 1) with y by lia.
      replace (y - 1 + 2) with (y + 1) by lia. lia. }
    exists (y - 1), ph. rewrite Hph.
    repeat split; unfold MINYEAR, MAXYEAR; lia.
  - assert (Hmiss : scan_cycle d (cycle_of (y - 1)) = None).
    { apply scan_cycle_of_missed; try (unfold MINYEAR, MAXYEAR; lia); auto.
      right. replace (y - 1 + 2) with (y + 1) by lia. lia. }
    rewrite Hmiss.
    assert (Hy3 : y <= 9998).
    { destruct (Z_le_dec y 9998); [assumption|].
      assert (y = 9999) as Ey by lia. rewrite Ey in *.
      change (days_before_year (9999 + 1)) with 3652059 in *. lia. }
    rewrite (build_cycle_ok y) by (unfold MINYEAR, MAXYEAR; lia).
    rewrite bind_Ok.
    destruct (scan_cycle_of_found d y Hd) as [ph Hph]; [lia|].
    exists y, ph. rewrite Hph.
    repeat split; unfold MINYEAR, MAXYEAR; lia.
Qed.

Lemma find_phase_fail :
  toordinal d < toordinal FIRST_DAY \/ toordinal LAST_DAY < toordinal d ->
  find_phase d = Raise ValueError.
Proof.
  intros Hr. pose proof (valid_inv d d_valid) as [Hy Hd].
  change (toordinal FIRST_DAY) with 366 in Hr.
  change (toordinal LAST_DAY) with 3652027 in Hr.
  destruct (year_from_ordinal d Hd) as (B & B1 & B2).
  unfold find_phase, find_phase_in.
  set (y := year d) in *. clearbody y.
  pose proof (days_before_year_mono 2 y) as M1.
  pose proof (days_before_year_mono (y + 1) MAXYEAR) as M4.
  change (days_before_year 2) with 365 in M1.
  change (days_before_year MAXYEAR) with 3651694 in M4.
  unfold MINYEAR, MAXYEAR in *.
  destruct Hr as [Hlo|Hhi].
  - assert (y = 1) as -> by lia.
    rewrite build_cycle_out_of_range by (unfold MINYEAR; lia).
    apply bind_Raise.
  - assert (y = 9999) as -> by lia.
    change (days_before_year (9999 + 1)) with 3652059 in *.
    rewrite (build_cycle_ok (9999 - 1)) by (unfold MINYEAR, MAXYEAR; lia).
    rewrite bind_Ok.
    assert (Hmiss : scan_cycle d (cycle_of (9999 - 1)) = None).
    { apply scan_cycle_of_missed; try (unfold MINYEAR, MAXYEAR; lia); auto.
      right. change (days_before_year (9999 - 1 + 2)) with 3652059. lia. }
    rewrite Hmiss.
    rewrite build_cycle_out_of_range by (unfold MAXYEAR; lia).
    apply bind_Raise.
Qed.

Lemma find_phase_inv ph :
  find_phase d = Ok ph ->
  exists wy,
    (MINYEAR <= wy /\ wy + 1 <= MAXYEAR) /\
    In ph (cycle_of wy) /\ contains d ph = true.
Proof.
  intros Hfind.
  destruct (Z_lt_dec (toordinal d) (toordinal FIRST_DAY)) as [Hlo|Hlo];
    [rewrite find_phase_fail in Hfind by auto; discriminate|].
  destruct (Z_lt_dec (toordinal LAST_DAY) (toordinal d)) as [Hhi|Hhi];
    [rewrite find_phase_fail in Hfind by auto; discriminate|].
  destruct find_phase_run as (wy & ph0 & Hwy & Hscan & Hfind0); [lia|].
  assert (ph0 = ph) as -> by congruence.
  exists wy. split; [exact Hwy|]. exact (scan_cycle_Some _ _ _ Hscan).
Qed.

End FindPhase.

(** ** The cycle for arbitrary block lengths *)

(** Splits [H : bind c k = r] on the result of [c], named [x]. *)
Ltac bind_inv H x E :=
  lazymatch type of H with
  | bind ?c _ = _ =>
      destruct c as [x|?] eqn:E;
      [rewrite bind_Ok in H; cbv beta in H | rewrite bind_Raise in H]
  end.

Section AnyConstants.

Variables fixed_days hard_days : Z.
Variable wy : Z.

Lemma In_add ph nm se ki s e po va phases :
  In ph (add nm se ki s e po va phases) ->
  In ph phases \/ (ph = mkphase nm se ki s e po va /\ date_gt s e = false).
Proof.
  unfold add. destruct (date_gt s e); [now left|].
  intros Hin. apply in_app_or in Hin as [Hin|[<-|[]]]; [now left|now right].
Qed.

Lemma minus_days_twice d h e :
  minus_days d 21 = Ok h -> minus_days h 1 = Ok e ->
  minus_days d 22 = Ok e /\ plus_days e 1 = Ok h.
Proof.
  intros Hh He.
  apply minus_days_inv in Hh as (-> & _ & Rh).
  apply minus_days_inv in He as (-> & _ & Re).
  rewrite toordinal_ord2ymd in *.
  rewrite minus_days_ok, plus_days_ok
    by (rewrite ?toordinal_ord2ymd; lia).
  rewrite toordinal_ord2ymd. split; do 2 f_equal; lia.
Qed.

Lemma build_cycle_with_members l :
  build_cycle_with fixed_days hard_days wy = Ok l ->
  exists whs shs nwhs,
    minus_days (mkdate wy 12 21) 21 = Ok whs /\
    minus_days (mkdate (wy + 1) 6 21) 21 = Ok shs /\
    minus_days (mkdate (wy + 1) 12 21) 21 = Ok nwhs /\
    forall ph, In ph l ->
      date_le (start ph) (end_ ph) = true /\ member_shape whs shs nwhs ph.
Proof.
  unfold build_cycle_with. intros H.
  bind_inv H ws Ews; [|discriminate H].
  bind_inv H ss Ess; [|discriminate H].
  bind_inv H wsn Ewsn; [|discriminate H].
  apply date_new_inv in Ews as [-> _], Ess as [-> _], Ewsn as [-> _].
  bind_inv H whs Ewhs; [|discriminate H].
  bind_inv H whe Ewhe; [|discriminate H].
  bind_inv H shs Eshs; [|discriminate H].
  bind_inv H she Eshe; [|discriminate H].
  bind_inv H nwhs Enwhs; [|discriminate H].
  cbv zeta in H.
  bind_inv H p1 Ep1; [|discriminate H]. bind_inv H e1 Ee1; [|discriminate H].
  bind_inv H p2 Ep2; [|discriminate H]. bind_inv H e2 Ee2; [|discriminate H].
  bind_inv H p3 Ep3; [|discriminate H]. bind_inv H e3 Ee3; [|discriminate H].
  bind_inv H p4 Ep4; [|discriminate H]. bind_inv H e4 Ee4; [|discriminate H].
  bind_inv H p5 Ep5; [|discriminate H]. bind_inv H e5 Ee5; [|discriminate H].
  bind_inv H p6 Ep6; [|discriminate H]. bind_inv H e6 Ee6; [|discriminate H].
  bind_inv H p7 Ep7; [|discriminate H]. bind_inv H e7 Ee7; [|discriminate H].
  bind_inv H p8 Ep8; [|discriminate H]. bind_inv H e8 Ee8; [|discriminate H].
  injection H as <-.
  exists whs, shs, nwhs. do 3 (split; [reflexivity|]).
  intros ph Hin. unfold member_shape.
  repeat (apply In_add in Hin as [Hin|[-> Hgt]];
    [|unfold date_le, date_gt in *; cbn [start end_ kind variable season];
      rewrite Hgt; split; [reflexivity|tauto]]).
  destruct Hin.
Qed.

End AnyConstants.

(** [build_cycle] raises nothing but what the date computations raise. *)
Lemma build_cycle_with_raises fixed_days hard_days wy e :
  build_cycle_with fixed_days hard_days wy = Raise e ->
  e = ValueError \/ e = OverflowError.
Proof.
  unfold build_cycle_with, winter_solstice, summer_solstice. intros H.
  cbv zeta in H.
  do 24 (let x := fresh "x" in
         let E := fresh "E" in
         bind_inv H x E;
         [|injection H as <-;
           first [ apply date_new_raises in E
                 | apply plus_days_raises in E
                 | apply minus_days_raises in E ];
           subst; tauto]).
  discriminate H.
Qed.

Lemma degenerate_example :
  exists l,
    build_cycle_with 100 42 2024 = Ok l /\ List.length l = 8%nat /\
    forall ph, In ph l -> variable ph = false.
Proof.
  eexists. split; [vm_compute; reflexivity|]. split; [reflexivity|].
  intros ph Hin. cbn [In] in Hin.
  repeat (destruct Hin as [<-|Hin]; [reflexivity|]). destruct Hin.
Qed.

(** ** The solstice counters *)

Section Solstices.

Lemma toordinal_june_21 y :
  toordinal (mkdate y 6 21) = days_before_year (y + 1) - 193.
Proof. exact (summer_ord_eq y). Qed.

Lemma toordinal_december_21 y :
  toordinal (mkdate y 12 21) = days_before_year (y + 1) - 10.
Proof. exact (winter_ord_eq y). Qed.

Lemma fold_max xs : forall x0,
  wf_day x0 -> Forall wf_day xs ->
  let m := fold_left (fun m s => if date_gt s m then s else m) xs x0 in
  wf_day m /\ In m (x0 :: xs) /\
  forall x, In x (x0 :: xs) -> toordinal x <= toordinal m.
Proof.
  induction xs as [|s xs IH]; intros x0 H0 Hxs; cbn [fold_left].
  - split; [assumption|]. split; [now left|].
    intros x [<-|[]]. lia.
  - inversion Hxs as [|? ? Hs Hxs']; subst.
    rewrite date_gt_toordinal by assumption.
    destruct (Z.ltb_spec (toordinal x0) (toordinal s)) as [Hlt|Hge].
    + destruct (IH s Hs Hxs') as (Hw & Hin & Hmax). cbv zeta in *.
      split; [assumption|]. split; [now right|].
      intros x [<-|Hx]; [|now apply Hmax].
      specialize (Hmax s (or_introl eq_refl)). lia.
    + destruct (IH x0 H0 Hxs') as (Hw & Hin & Hmax). cbv zeta in *.
      split; [assumption|]. split.
      * destruct Hin as [<-|Hin]; [now left|now right; right].
      * intros x [<-|[<-|Hx]].
        -- apply Hmax. now left.
        -- specialize (Hmax x0 (or_introl eq_refl)). lia.
        -- apply Hmax. now right.
Qed.

Lemma fold_min xs : forall x0,
  wf_day x0 -> Forall wf_day xs ->
  let m := fold_left (fun m s => if date_lt s m then s else m) xs x0 in
  wf_day m /\ In m (x0 :: xs) /\
  forall x, In x (x0 :: xs) -> toordinal m <= toordinal x.
Proof.
  induction xs as [|s xs IH]; intros x0 H0 Hxs; cbn [fold_left].
  - split; [assumption|]. split; [now left|].
    intros x [<-|[]]. lia.
  - inversion Hxs as [|? ? Hs Hxs']; subst.
    rewrite date_lt_toordinal by assumption.
    destruct (Z.ltb_spec (toordinal s) (toordinal x0)) as [Hlt|Hge].
    + destruct (IH s Hs Hxs') as (Hw & Hin & Hmin). cbv zeta in *.
      split; [assumption|]. split; [now right|].
      intros x [<-|Hx]; [|now apply Hmin].
      specialize (Hmin s (or_introl eq_refl)). lia.
    + destruct (IH x0 H0 Hxs') as (Hw & Hin & Hmin). cbv zeta in *.
      split; [assumption|]. split.
      * destruct Hin as [<-|Hin]; [now left|now right; right].
      * intros x [<-|[<-|Hx]].
        -- apply Hmin. now left.
        -- specialize (Hmin x0 (or_introl eq_refl)). lia.
        -- apply Hmin. now right.
Qed.

(** [max] and [min] of a sequence of dates that is not empty. *)
Lemma py_max_spec l x :
  In x l -> Forall wf_day l ->
  exists m, py_max l = Ok m /\ In m l /\
            forall y, In y l -> toordinal y <= toordinal m.
Proof.
  destruct l as [|x0 xs]; [intros []|]. intros _ Hwf.
  inversion Hwf as [|? ? H0 Hxs]; subst.
  destruct (fold_max xs x0 H0 Hxs) as (_ & Hin & Hmax).
  eexists. split; [reflexivity|]. split; assumption.
Qed.

Lemma py_min_spec l x :
  In x l -> Forall wf_day l ->
  exists m, py_min l = Ok m /\ In m l /\
            forall y, In y l -> toordinal m <= toordinal y.
Proof.
  destruct l as [|x0 xs]; [intros []|]. intros _ Hwf.
  inversion Hwf as [|? ? H0 Hxs]; subst.
  destruct (fold_min xs x0 H0 Hxs) as (_ & Hin & Hmin).
  eexists. split; [reflexivity|]. split; assumption.
Qed.

Lemma wf_filter (keep : date -> bool) (l : list date) :
  Forall wf_day l -> Forall wf_day (filter keep l).
Proof.
  rewrite !Forall_forall. intros H x Hx. apply H.
  now apply filter_In in Hx.
Qed.

Lemma last_next_solstice_run d :
  valid d = true -> MINYEAR < year d < MAXYEAR ->
  exists last next,
    last_next_solstice d = Ok (last, next) /\
    wf_day last /\ wf_day next /\
    toordinal last <= toordinal d < toordinal next /\
    182 <= toordinal next - toordinal last <= 183.
Proof.
  intros Hv Hy. pose proof (valid_inv d Hv) as [_ Hd].
  destruct (year_from_ordinal d Hd) as (B & _ & _).
  unfold last_next_solstice.
  set (y := year d) in *. clearbody y.
  pose proof (days_before_year_succ (y - 1)) as S0.
  pose proof (days_before_year_succ y) as S1.
  pose proof (days_before_year_succ (y + 1)) as S2.
  pose proof (leap_day_range (y - 1)). pose proof (leap_day_range y).
  pose proof (leap_day_range (y + 1)).
  replace (y - 1 + 1) with y in S0 by lia.
  replace (y + 1 + 1) with (y + 2) in S2 by lia.
  rewrite !date_new_solstice_ok by (unfold MINYEAR, MAXYEAR in *; lia).
  rewrite !bind_Ok. cbv beta zeta.
  set (sols := [mkdate (y - 1) 6 21; mkdate (y - 1) 12 21; mkdate y 6 21;
                mkdate y 12 21; mkdate (y + 1) 6 21; mkdate (y + 1) 12 21]).
  assert (Hwf : Forall wf_day sols).
  { repeat (apply Forall_cons;
      [first [apply wf_day_june_21 | apply wf_day_december_21]|]).
    apply Forall_nil. }
  assert (Hord : map toordinal sols =
                 [days_before_year y - 193; days_before_year y - 10;
                  days_before_year (y + 1) - 193; days_before_year (y + 1) - 10;
                  days_before_year (y + 2) - 193; days_before_year (y + 2) - 10]).
  { unfold sols. cbn [map].
    rewrite !toordinal_june_21, !toordinal_december_21.
    replace (y - 1 + 1) with y by lia.
    replace (y + 1 + 1) with (y + 2) by lia. reflexivity. }
  assert (Hle : forall s, In s sols ->
            date_le s d = (toordinal s <=? toordinal d) /\
            date_gt s d = (toordinal d <? toordinal s)).
  { intros s Hs. rewrite Forall_forall in Hwf.
    rewrite date_le_toordinal, date_gt_toordinal by auto. split; reflexivity. }
  destruct (py_max_spec (filter (fun s => date_le s d) sols)
              (mkdate (y - 1) 6 21)) as (last & -> & Hlast & Hmax).
  { apply filter_In. split; [now left|].
    rewrite (proj1 (Hle _ (or_introl eq_refl))), toordinal_june_21.
    replace (y - 1 + 1) with y by lia. apply Z.leb_le. lia. }
  { now apply wf_filter. }
  destruct (py_min_spec (filter (fun s => date_gt s d) sols)
              (mkdate (y + 1) 12 21)) as (next & -> & Hnext & Hmin).
  { apply filter_In. split; [unfold sols; cbn [In]; tauto|].
    rewrite date_gt_toordinal, toordinal_december_21
      by first [apply wf_day_december_21 | exact Hd].
    replace (y + 1 + 1) with (y + 2) by lia. apply Z.ltb_lt. lia. }
  { now apply wf_filter. }
  rewrite !bind_Ok. exists last, next. split; [reflexivity|].
  apply filter_In in Hlast as [Hlast Hlast_le], Hnext as [Hnext Hnext_gt].
  rewrite (proj1 (Hle _ Hlast)) in Hlast_le.
  rewrite (proj2 (Hle _ Hnext)) in Hnext_gt.
  apply Z.leb_le in Hlast_le. apply Z.ltb_lt in Hnext_gt.
  rewrite Forall_forall in Hwf.
  split; [now apply Hwf|]. split; [now apply Hwf|]. split; [lia|].
  assert (Hmax' : forall s, In s sols -> toordinal s <= toordinal d ->
                            toordinal s <= toordinal last).
  { intros s Hs Hsd. apply Hmax, filter_In. split; [assumption|].
    rewrite (proj1 (Hle _ Hs)). now apply Z.leb_le. }
  assert (Hmin' : forall s, In s sols -> toordinal d < toordinal s ->
                            toordinal next <= toordinal s).
  { intros s Hs Hsd. apply Hmin, filter_In. split; [assumption|].
    rewrite (proj2 (Hle _ Hs)). now apply Z.ltb_lt. }
  clear Hmax Hmin Hle.
  assert (Hall : Forall (fun o => (o <= toordinal d -> o <= toordinal last) /\
                                  (toordinal d < o -> toordinal next <= o))
                        (map toordinal sols)).
  { apply Forall_forall. intros o Ho. apply in_map_iff in Ho as (s & <- & Hs).
    split; [now apply Hmax'|now apply Hmin']. }
  apply (in_map toordinal) in Hlast, Hnext.
  rewrite Hord in Hall, Hlast, Hnext. clear Hord Hmax' Hmin' Hwf.
  repeat match goal with
  | H : Forall _ (_ :: _) |- _ => inversion H; clear H; subst
  end.
  cbn [In] in Hlast, Hnext.
  repeat (destruct Hlast as [Hlast|Hlast]; [|]); try contradiction;
    repeat (destruct Hnext as [Hnext|Hnext]; [|]); try contradiction; lia.
Qed.

End Solstices.

(** ** The cycle as calendar dates *)

(** A date given by year, month and day, [k] being the leap day of the
    year: it is a calendar day, [n] days after the end of the year before. *)
Ltac calendar_day :=
  unfold wf_day, toordinal, ymd2ord, days_before_month, days_in_month,
    leap_day in *;
  cbn [year month day]; cbn -[Z.add Z.sub Z.mul is_leap days_before_year];
  repeat match goal with
  | |- context [is_leap ?y] => destruct (is_leap y)
  | H : context [is_leap ?y] |- _ => destruct (is_leap y)
  end; lia.

Section Calendar.

Lemma ord2ymd_is d n : wf_day d -> toordinal d = n -> ord2ymd n = d.
Proof. intros Hd <-. now apply ord2ymd_toordinal. Qed.

Lemma phase_dates_eq nm se ki po va s s' e e' :
  s = s' -> e = e' ->
  mkphase nm se ki s e po va = mkphase nm se ki s' e' po va.
Proof. now intros -> ->. Qed.

Lemma build_cycle_calendar wy :
  MINYEAR <= wy < MAXYEAR -> build_cycle wy = Ok (calendar wy).
Proof.
  intros Hwy. rewrite build_cycle_ok by lia.
  unfold cycle_of, cycle_at, phases_at, calendar. cbv beta zeta.
  rewrite winter_ord_eq, summer_ord_eq, winter_ord_eq.
  pose proof (days_before_year_succ wy) as S0.
  pose proof (days_before_year_succ (wy + 1)) as S1.
  replace (wy + 1 + 1) with (wy + 2) in * by lia.
  apply (f_equal (@Ok (list phase))).
  repeat (apply (f_equal2 cons);
    [apply phase_dates_eq; apply ord2ymd_is; calendar_day|]).
  reflexivity.
Qed.

End Calendar.

Lemma Ok_inj {A : Type} (a b : A) : Ok a = Ok b -> a = b.
Proof. intros H. now inversion H. Qed.

Lemma cycle_of_calendar wy :
  MINYEAR <= wy -> wy + 1 <= MAXYEAR -> cycle_of wy = calendar wy.
Proof.
  intros H1 H2.
  pose proof (build_cycle_ok wy H1 H2) as E.
  rewrite build_cycle_calendar in E by lia.
  symmetry. exact (Ok_inj _ _ E).
Qed.

Lemma build_cycle_inv_calendar wy l :
  build_cycle wy = Ok l ->
  (MINYEAR <= wy /\ wy + 1 <= MAXYEAR) /\ l = calendar wy.
Proof.
  intros H. apply build_cycle_inv in H as [[H1 H2] ->].
  split; [lia|]. now apply cycle_of_calendar.
Qed.

(** ** Any block lengths: what the built list covers *)

Lemma plus_days_ord d n d' :
  plus_days d n = Ok d' -> toordinal d' = toordinal d + n /\ wf_day d'.
Proof.
  intros H. apply plus_days_inv in H as (-> & _ & _).
  split; [apply toordinal_ord2ymd|apply wf_day_ord2ymd].
Qed.

Lemma minus_days_ord d n d' :
  minus_days d n = Ok d' -> toordinal d' = toordinal d - n /\ wf_day d'.
Proof.
  intros H. apply minus_days_inv in H as (-> & _ & _).
  split; [apply toordinal_ord2ymd|apply wf_day_ord2ymd].
Qed.

Lemma In_add_new nm se ki s e po va phases :
  wf_day s -> wf_day e -> toordinal s <= toordinal e ->
  In (mkphase nm se ki s e po va) (add nm se ki s e po va phases).
Proof.
  intros Hs He Hle. rewrite add_keeps by assumption.
  apply in_or_app. right. now left.
Qed.

Lemma In_add_old ph nm se ki s e po va phases :
  In ph phases -> In ph (add nm se ki s e po va phases).
Proof.
  intros Hin. unfold add. destruct (date_gt s e); [assumption|].
  apply in_or_app. now left.
Qed.

Lemma scan_cycle_None d l ph :
  scan_cycle d l = None -> In ph l -> contains d ph = false.
Proof.
  induction l as [|q l IH]; cbn [scan_cycle In]; [contradiction|].
  destruct (contains d q) eqn:Hq; [discriminate|].
  intros H [<-|Hin]; [assumption|now apply IH].
Qed.

(** Splits [H : build_cycle_with F H wy = Ok l] into the date computations
    of [build_cycle], one hypothesis each, and the list it assembles. *)
Ltac invert_build H :=
  unfold build_cycle_with in H;
  let ws := fresh "ws" in let Ews := fresh "Ews" in
  let ss := fresh "ss" in let Ess := fresh "Ess" in
  let wsn := fresh "wsn" in let Ewsn := fresh "Ewsn" in
  bind_inv H ws Ews; [|discriminate H];
  bind_inv H ss Ess; [|discriminate H];
  bind_inv H wsn Ewsn; [|discriminate H];
  apply date_new_inv in Ews as [-> _];
  apply date_new_inv in Ess as [-> _];
  apply date_new_inv in Ewsn as [-> _];
  cbv zeta in H;
  do 21 (let x := fresh "x" in
         let E := fresh "E" in
         bind_inv H x E; [|discriminate H]);
  apply Ok_inj in H; subst;
  repeat match goal with
  | E : plus_days _ _ = Ok _ |- _ => apply plus_days_ord in E as [? ?]
  | E : minus_days _ _ = Ok _ |- _ => apply minus_days_ord in E as [? ?]
  end.

Ltac find_member :=
  first [ apply In_add_new; [assumption|assumption|lia]
        | apply In_add_old; find_member ].

Lemma build_cycle_with_covers fixed_days hard_days wy l d :
  build_cycle_with fixed_days hard_days wy = Ok l -> wf_day d ->
  toordinal (mkdate wy 12 21) - 21 <= toordinal d <
  toordinal (mkdate (wy + 1) 12 21) - 21 ->
  exists ph, In ph l /\ contains d ph = true.
Proof.
  intros H Hd Hr. invert_build H.
  match goal with
  | |- exists ph, In ph
         (add _ _ _ ?s9 ?e9 _ _ (add _ _ _ ?s8 ?e8 _ _ (add _ _ _ ?s7 ?e7 _ _
         (add _ _ _ ?s6 ?e6 _ _ (add _ _ _ ?s5 ?e5 _ _ (add _ _ _ ?s4 ?e4 _ _
         (add _ _ _ ?s3 ?e3 _ _ (add _ _ _ ?s2 ?e2 _ _ (add _ _ _ ?s1 ?e1 _ _
         (add _ _ _ ?s0 ?e0 _ _ [])))))))))) /\ _ =>
      assert (Hcase :
        toordinal s0 <= toordinal d <= toordinal e0 \/
        toordinal s1 <= toordinal d <= toordinal e1 \/
        toordinal s2 <= toordinal d <= toordinal e2 \/
        toordinal s3 <= toordinal d <= toordinal e3 \/
        toordinal s4 <= toordinal d <= toordinal e4 \/
        toordinal s5 <= toordinal d <= toordinal e5 \/
        toordinal s6 <= toordinal d <= toordinal e6 \/
        toordinal s7 <= toordinal d <= toordinal e7 \/
        toordinal s8 <= toordinal d <= toordinal e8 \/
        toordinal s9 <= toordinal d <= toordinal e9) by lia
  end.
  repeat (destruct Hcase as [Hcase|Hcase]);
    (match type of Hcase with
     | toordinal ?s <= _ <= toordinal ?e =>
         match goal with
         | |- context [add ?nm ?se ?ki s e ?po ?va _] =>
             exists (mkphase nm se ki s e po va)
         end
     end;
     split;
     [ find_member
     | apply contains_ordinals; [assumption|split; assumption|exact Hcase] ]).
Qed.

Lemma find_phase_with_default d :
  find_phase_with FIXED_DAYS HARD_DAYS d = find_phase d.
Proof.
  unfold find_phase_with, find_phase.
  generalize [year d - 1; year d; year d + 1]. intros wys.
  induction wys as [|wy wys IH]; [reflexivity|].
  cbn [find_phase_in_with find_phase_in]. unfold build_cycle.
  destruct (build_cycle_with FIXED_DAYS HARD_DAYS wy) as [l|e];
    [|reflexivity].
  rewrite !bind_Ok. destruct (scan_cycle d l); [reflexivity|exact IH].
Qed.

Section TwoCycles.

Variables fixed_days hard_days : Z.
Variable d : date.
Hypothesis d_valid : valid d = true.

(** No day of the year of [d] is missed by both the cycle of the year
    before and the cycle of the year. *)
Lemma two_cycles_cover l1 l2 :
  build_cycle_with fixed_days hard_days (year d - 1) = Ok l1 ->
  build_cycle_with fixed_days hard_days (year d) = Ok l2 ->
  scan_cycle d l1 = None -> scan_cycle d l2 = None -> False.
Proof.
  intros H1 H2 S1 S2. pose proof (valid_inv d d_valid) as [_ Hd].
  destruct (year_from_ordinal d Hd) as (B & B1 & B2).
  pose proof (winter_ord_eq (year d - 1)) as W0.
  pose proof (winter_ord_eq (year d)) as W1.
  pose proof (winter_ord_eq (year d + 1)) as W2.
  unfold winter_ord in *.
  replace (year d - 1 + 1) with (year d) in * by lia.
  replace (year d + 1 + 1) with (year d + 2) in * by lia.
  destruct (Z_lt_dec (toordinal d) (toordinal (mkdate (year d) 12 21) - 21))
    as [Hlt|Hge].
  - destruct (build_cycle_with_covers _ _ _ _ d H1 Hd) as (ph & Hin & Hc).
    { replace (year d - 1 + 1) with (year d) by lia. lia. }
    rewrite (scan_cycle_None _ _ _ S1 Hin) in Hc. discriminate.
  - destruct (build_cycle_with_covers _ _ _ _ d H2 Hd) as (ph & Hin & Hc);
      [lia|].
    rewrite (scan_cycle_None _ _ _ S2 Hin) in Hc. discriminate.
Qed.

Lemma find_phase_with_two_cycles :
  find_phase_with fixed_days hard_days d =
  find_phase_in_with fixed_days hard_days d [year d - 1; year d].
Proof.
  unfold find_phase_with. cbn [find_phase_in_with].
  destruct (build_cycle_with fixed_days hard_days (year d - 1))
    as [l1|e1] eqn:E1; [|reflexivity].
  rewrite !bind_Ok. destruct (scan_cycle d l1) eqn:S1; [reflexivity|].
  destruct (build_cycle_with fixed_days hard_days (year d))
    as [l2|e2] eqn:E2; [|reflexivity].
  rewrite !bind_Ok. destruct (scan_cycle d l2) eqn:S2; [reflexivity|].
  destruct (two_cycles_cover l1 l2 E1 E2 S1 S2).
Qed.

Lemma find_phase_with_raises e :
  find_phase_with fixed_days hard_days d = Raise e ->
  e = ValueError \/ e = OverflowError.
Proof.
  rewrite find_phase_with_two_cycles. cbn [find_phase_in_with].
  destruct (build_cycle_with fixed_days hard_days (year d - 1))
    as [l1|e1] eqn:E1.
  2:{ rewrite bind_Raise. intros [= <-].
      exact (build_cycle_with_raises _ _ _ _ E1). }
  rewrite bind_Ok. destruct (scan_cycle d l1) eqn:S1; [discriminate|].
  destruct (build_cycle_with fixed_days hard_days (year d))
    as [l2|e2] eqn:E2.
  2:{ rewrite bind_Raise. intros [= <-].
      exact (build_cycle_with_raises _ _ _ _ E2). }
  rewrite bind_Ok. destruct (scan_cycle d l2) eqn:S2; [discriminate|].
  destruct (two_cycles_cover l1 l2 E1 E2 S1 S2).
Qed.

End TwoCycles.

(** ** The colour classes of the built phases *)

(** ** Progress within the phase found *)

Lemma find_phase_scan d ph :
  valid d = true -> find_phase d = Ok ph ->
  exists wy,
    (MINYEAR <= wy /\ wy + 1 <= MAXYEAR) /\
    scan_cycle d (cycle_of wy) = Some ph.
Proof.
  intros Hv Hfind.
  destruct (Z_lt_dec (toordinal d) (toordinal FIRST_DAY)) as [Hlo|Hlo];
    [rewrite find_phase_fail in Hfind by auto; discriminate|].
  destruct (Z_lt_dec (toordinal LAST_DAY) (toordinal d)) as [Hhi|Hhi];
    [rewrite find_phase_fail in Hfind by auto; discriminate|].
  destruct (find_phase_run d Hv) as (wy & ph0 & Hwy & Hscan & Hfind0); [lia|].
  assert (ph0 = ph) as -> by congruence.
  exists wy. split; assumption.
Qed.

(** What [find_phase] returns, by ordinals. *)
Lemma find_phase_ordinals d ph :
  valid d = true -> find_phase d = Ok ph ->
  wf_phase ph /\ toordinal (start ph) <= toordinal d <= toordinal (end_ ph).
Proof.
  intros Hv Hfind. pose proof (valid_inv d Hv) as [_ Hd].
  destruct (find_phase_inv d Hv ph Hfind) as (wy & _ & Hin & Hc).
  pose proof (proj1 (Forall_forall _ _) (wf_cycle_of wy) ph Hin) as Hw.
  split; [exact Hw|]. now apply contains_ordinals in Hc.
Qed.

(** ** The weeks of a Hard phase *)

Lemma hard_in_calendar wy ph :
  In ph (calendar wy) -> kind ph = "hard"%string ->
  ph = mkphase "Winter Hard" "Winter" "hard" (mkdate wy 11 30)
         (mkdate (wy + 1) 1 10) None false \/
  ph = mkphase "Summer Hard" "Summer" "hard" (mkdate (wy + 1) 5 31)
         (mkdate (wy + 1) 7 11) None false.
Proof.
  unfold calendar. cbv zeta. cbn [In]. intros Hin Hk.
  repeat (destruct Hin as [<-|Hin]; [first [discriminate Hk | tauto]|]).
  destruct Hin.
Qed.

Lemma find_phase_hard d ph :
  valid d = true -> find_phase d = Ok ph -> kind ph = "hard"%string ->
  exists wy,
    (MINYEAR <= wy /\ wy + 1 <= MAXYEAR) /\
    (ph = mkphase "Winter Hard" "Winter" "hard" (mkdate wy 11 30)
            (mkdate (wy + 1) 1 10) None false \/
     ph = mkphase "Summer Hard" "Summer" "hard" (mkdate (wy + 1) 5 31)
            (mkdate (wy + 1) 7 11) None false).
Proof.
  intros Hv Hfind Hk.
  destruct (find_phase_inv d Hv ph Hfind) as (wy & [H1 H2] & Hin & _).
  rewrite cycle_of_calendar in Hin by assumption.
  exists wy. split; [split; assumption|]. now apply hard_in_calendar.
Qed.

Lemma hard_day_index d ph :
  valid d = true -> find_phase d = Ok ph -> kind ph = "hard"%string ->
  0 <= day_index d ph <= 41 /\
  wf_day (hard_solstice ph) /\
  day_index d ph = 21 + days_between d (hard_solstice ph).
Proof.
  intros Hv Hfind Hk.
  destruct (find_phase_ordinals d ph Hv Hfind) as [_ Hc].
  destruct (find_phase_hard d ph Hv Hfind Hk) as (wy & _ & [-> | ->]);
    unfold hard_solstice, day_index, days_between in *;
    cbn [start end_ season year String.eqb Ascii.eqb Bool.eqb] in *.
  - pose proof (days_before_year_succ wy) as S0.
    assert (E1 : toordinal (mkdate wy 12 21) =
                 toordinal (mkdate wy 11 30) + 21) by calendar_day.
    assert (E2 : toordinal (mkdate (wy + 1) 1 10) =
                 toordinal (mkdate wy 11 30) + 41) by calendar_day.
    split; [lia|]. split; [apply wf_day_december_21|lia].
  - assert (E1 : toordinal (mkdate (wy + 1) 6 21) =
                 toordinal (mkdate (wy + 1) 5 31) + 21) by calendar_day.
    assert (E2 : toordinal (mkdate (wy + 1) 7 11) =
                 toordinal (mkdate (wy + 1) 5 31) + 41) by calendar_day.
    split; [lia|]. split; [apply wf_day_june_21|lia].
Qed.

(** A phase of a built cycle that holds the date is the phase found. *)
Lemma find_phase_of_member d wy q :
  valid d = true -> MINYEAR <= wy -> wy + 1 <= MAXYEAR ->
  In q (cycle_of wy) -> contains d q = true ->
  toordinal FIRST_DAY <= toordinal d ->
  find_phase d = Ok q.
Proof.
  intros Hv H1 H2 Hin Hc Hlo. pose proof (valid_inv d Hv) as [_ Hd].
  pose proof (cycle_of_range d wy q H1 H2 Hd Hin Hc) as R.
  pose proof (days_before_year_mono (wy + 2) (MAXYEAR + 1)) as M.
  rewrite days_before_year_past_MAXYEAR in M.
  destruct (find_phase_run d Hv) as (wy' & ph & [H1' H2'] & Hscan & Hfind).
  { change (toordinal LAST_DAY) with 3652027.
    unfold MAXYEAR, MAXORDINAL in *. lia. }
  rewrite Hfind. f_equal. symmetry.
  exact (phase_of_day_unique d wy' wy ph q H1' H2' H1 H2 Hd Hscan Hin Hc).
Qed.

(** ** The solstices around a date *)

Lemma fold_pick_In (pick : date -> date -> bool) xs : forall x0,
  In (fold_left (fun m s => if pick s m then s else m) xs x0) (x0 :: xs).
Proof.
  induction xs as [|s xs IH]; intros x0; cbn [fold_left]; [now left|].
  destruct (pick s x0).
  - right. apply IH.
  - destruct (IH x0) as [E|Hin]; [now left|now right; right].
Qed.

Lemma py_max_In l m : py_max l = Ok m -> In m l.
Proof.
  destruct l as [|x xs]; [discriminate|]. intros [= <-].
  apply (fold_pick_In date_gt).
Qed.

Lemma py_min_In l m : py_min l = Ok m -> In m l.
Proof.
  destruct l as [|x xs]; [discriminate|]. intros [= <-].
  apply (fold_pick_In date_lt).
Qed.

Lemma last_next_solstice_members d last next :
  last_next_solstice d = Ok (last, next) ->
  let y := year d in
  let sols := [mkdate (y - 1) 6 21; mkdate (y - 1) 12 21; mkdate y 6 21;
               mkdate y 12 21; mkdate (y + 1) 6 21; mkdate (y + 1) 12 21] in
  In last sols /\ In next sols.
Proof.
  unfold last_next_solstice. intros H.
  do 6 (let s := fresh "s" in let E := fresh "E" in
        bind_inv H s E; [|discriminate H];
        apply date_new_inv in E as [-> _]).
  cbv zeta in H.
  bind_inv H m Em; [|discriminate H].
  bind_inv H n En; [|discriminate H].
  injection H as <- <-.
  apply py_max_In, filter_In in Em as [Em _].
  apply py_min_In, filter_In in En as [En _].
  cbv zeta. split; assumption.
Qed.

Lemma last_next_solstice_closed d :
  valid d = true -> MINYEAR < year d < MAXYEAR ->
  last_next_solstice d = Ok (solstice_pair d).
Proof.
  intros Hv Hy. pose proof (valid_inv d Hv) as [_ Hd].
  destruct (last_next_solstice_run d Hv Hy)
    as (last & next & Hrun & Hl & Hn & Hord & Hgap).
  destruct (last_next_solstice_members d last next Hrun) as [Il In_].
  cbv zeta in Il, In_.
  destruct (year_from_ordinal d Hd) as (B & _ & _).
  rewrite Hrun. apply f_equal. unfold solstice_pair. cbv zeta.
  rewrite !date_lt_toordinal
    by first [apply wf_day_june_21 | apply wf_day_december_21 | exact Hd].
  apply (in_map toordinal) in Il, In_. cbn [map] in Il, In_.
  rewrite !toordinal_june_21, !toordinal_december_21 in *.
  set (y := year d) in *. clearbody y.
  pose proof (days_before_year_succ (y - 1)) as S0.
  pose proof (days_before_year_succ y) as S1.
  pose proof (days_before_year_succ (y + 1)) as S2.
  pose proof (leap_day_range (y - 1)). pose proof (leap_day_range y).
  pose proof (leap_day_range (y + 1)).
  replace (y - 1 + 1) with y in * by lia.
  replace (y + 1 + 1) with (y + 2) in * by lia.
  assert (Eq : forall a b, wf_day a -> wf_day b ->
                 toordinal a = toordinal b -> a = b)
    by (intros; now apply toordinal_inj).
  destruct (Z.ltb_spec (toordinal d) (days_before_year (y + 1) - 193));
    [|destruct (Z.ltb_spec (toordinal d) (days_before_year (y + 1) - 10))];
    (apply f_equal2;
     (apply Eq;
      [ assumption
      | first [apply wf_day_june_21 | apply wf_day_december_21]
      | rewrite ?toordinal_june_21, ?toordinal_december_21;
        replace (y - 1 + 1) with y by lia;
        replace (y + 1 + 1) with (y + 2) by lia;
        cbn [In] in Il, In_; lia ])).
Qed.

Lemma solstice_pair_bounds d :
  valid d = true -> MINYEAR < year d < MAXYEAR ->
  let last := fst (solstice_pair d) in
  let next := snd (solstice_pair d) in
  wf_day last /\ wf_day next /\
  toordinal last <= toordinal d < toordinal next /\
  182 <= toordinal next - toordinal last <= 183.
Proof.
  intros Hv Hy.
  destruct (last_next_solstice_run d Hv Hy)
    as (last & next & Hrun & Hl & Hn & Hord & Hgap).
  rewrite last_next_solstice_closed in Hrun by assumption.
  apply Ok_inj in Hrun. rewrite Hrun. cbn [fst snd]. tauto.
Qed.

Lemma solstice_pair_names d :
  let last := fst (solstice_pair d) in
  let next := snd (solstice_pair d) in
  (solstice_name last = "Summer" /\ solstice_name next = "Winter" \/
   solstice_name last = "Winter" /\ solstice_name next = "Summer")%string.
Proof.
  unfold solstice_pair. cbv zeta.
  destruct (date_lt d _); [|destruct (date_lt d _)]; cbn; tauto.
Qed.

Lemma is_solstice_iff d :
  valid d = true -> MINYEAR < year d < MAXYEAR ->
  is_solstice d = true <-> d = fst (solstice_pair d).
Proof.
  intros Hv Hy. unfold is_solstice, solstice_pair, date_lt. cbv zeta.
  destruct d as [y m dd]. cbn [year month day] in *.
  rewrite Z.ltb_irrefl, Z.eqb_refl. cbn [orb andb].
  destruct (Z.eqb_spec m 6), (Z.eqb_spec m 12), (Z.eqb_spec dd 21),
    (Z.ltb_spec m 6), (Z.ltb_spec m 12), (Z.ltb_spec dd 21);
    cbn [orb andb fst snd]; try lia;
    (split; [intros E; first [discriminate E | subst; reflexivity]
            |intros E; inversion E; first [reflexivity | lia]]).
Qed.

(** ** The Hard phase and the solstice counters *)

Lemma solstice_ordinal s :
  is_solstice s = true ->
  wf_day s /\
  (toordinal s = days_before_year (year s + 1) - 193 \/
   toordinal s = days_before_year (year s + 1) - 10).
Proof.
  unfold is_solstice. destruct s as [y m dd]. cbn [year month day].
  rewrite andb_true_iff, orb_true_iff, !Z.eqb_eq.
  intros [[-> | ->] ->].
  - split; [apply wf_day_june_21|left; apply toordinal_june_21].
  - split; [apply wf_day_december_21|right; apply toordinal_december_21].
Qed.

Lemma solstices_apart s1 s2 :
  is_solstice s1 = true -> is_solstice s2 = true ->
  toordinal s1 < toordinal s2 -> 182 <= toordinal s2 - toordinal s1.
Proof.
  intros H1 H2 Hlt.
  apply solstice_ordinal in H1 as [_ E1], H2 as [_ E2].
  destruct (Z.lt_trichotomy (year s1) (year s2)) as [Hy|[Hy|Hy]].
  - pose proof (days_before_year_mono (year s1 + 1) (year s2 + 1)). lia.
  - rewrite Hy in *. lia.
  - pose proof (days_before_year_mono (year s2 + 1) (year s1 + 1)). lia.
Qed.

Lemma solstice_pair_solstices d :
  is_solstice (fst (solstice_pair d)) = true /\
  is_solstice (snd (solstice_pair d)) = true.
Proof.
  unfold solstice_pair. cbv zeta.
  destruct (date_lt d _); [|destruct (date_lt d _)]; split; reflexivity.
Qed.

(** A solstice less than half a year away is the last or the next one. *)
Lemma near_solstice d s :
  valid d = true -> MINYEAR < year d < MAXYEAR -> is_solstice s = true ->
  (toordinal s <= toordinal d < toordinal s + 182 ->
   fst (solstice_pair d) = s) /\
  (toordinal d < toordinal s <= toordinal d + 182 ->
   snd (solstice_pair d) = s).
Proof.
  intros Hv Hy Hs.
  destruct (solstice_pair_bounds d Hv Hy) as (Hl & Hn & Hord & Hgap).
  destruct (solstice_pair_solstices d) as [Sl Sn]. cbv zeta in *.
  pose proof (solstice_ordinal s Hs) as [Hw _].
  pose proof (solstices_apart s (fst (solstice_pair d)) Hs Sl).
  pose proof (solstices_apart (fst (solstice_pair d)) s Sl Hs).
  pose proof (solstices_apart s (snd (solstice_pair d)) Hs Sn).
  pose proof (solstices_apart (snd (solstice_pair d)) s Sn Hs).
  split; intros Hr; apply toordinal_inj; auto; lia.
Qed.

Lemma is_solstice_hard_solstice ph : is_solstice (hard_solstice ph) = true.
Proof.
  unfold hard_solstice, is_solstice. cbn [month day].
  destruct (String.eqb (season ph) "Winter"); reflexivity.
Qed.

Lemma solstice_name_hard_solstice ph :
  season ph = "Winter"%string \/ season ph = "Summer"%string ->
  solstice_name (hard_solstice ph) = season ph.
Proof. intros [E|E]; unfold hard_solstice; rewrite E; reflexivity. Qed.

(** ** Block lengths that keep the ten phases *)

Lemma Some_inj {A} (x y : A) : Some x = Some y -> x = y.
Proof. intros E. now inversion E. Qed.

Section LayoutAt.

Variable f : Z -> date.
Hypothesis f_ord2ymd : forall n, f n = ord2ymd n.
Variables F H a b c : Z.
Hypothesis F_pos : 1 <= F.
Hypothesis H_pos : 1 <= H.
Hypothesis a_pos : 1 <= a.
Hypothesis fits_ab : a + H + 3 * F < b.
Hypothesis fits_bc : b + H + 3 * F < c.
Hypothesis c_max : c <= MAXORDINAL.

Lemma contiguous_layout i p q :
  nth_error (layout f F H a b c) i = Some p ->
  nth_error (layout f F H a b c) (S i) = Some q ->
  plus_days (end_ p) 1 = Ok (start q).
Proof using All.
  intros Hp Hq. unfold layout in Hp, Hq.
  do 10 (destruct i as [|i];
    [ cbn [nth_error] in Hp, Hq; try discriminate;
      apply Some_inj in Hp; apply Some_inj in Hq; subst p q;
      cbn [start end_];
      rewrite !f_ord2ymd;
      rewrite plus_days_ok by (rewrite ?toordinal_ord2ymd; lia);
      rewrite toordinal_ord2ymd; do 2 f_equal; lia
    | ]).
  cbn [nth_error] in Hp. destruct i; discriminate.
Qed.

Lemma lengths_layout ph :
  In ph (layout f F H a b c) ->
  (kind ph = "hard"%string -> total_days ph = H) /\
  (kind ph = "transit"%string -> variable ph = false -> total_days ph = F) /\
  date_le (start ph) (end_ ph) = true.
Proof using All.
  intros Hin. unfold layout in Hin. cbn [In] in Hin.
  repeat (destruct Hin as [Hin|Hin]); try contradiction; subst ph;
    unfold total_days, days_between;
    cbn [kind variable start end_];
    rewrite date_le_toordinal by (apply f_wf; assumption);
    rewrite !(f_ord f f_ord2ymd);
    (split; [intros Hk; try discriminate Hk; lia|]);
    (split; [intros Hk Hv; try discriminate; lia|]);
    apply Z.leb_le; lia.
Qed.

End LayoutAt.

Lemma build_cycle_with_ok F H wy :
  1 <= F -> 1 <= H -> H + 3 * F <= 181 ->
  MINYEAR <= wy -> wy + 1 <= MAXYEAR ->
  build_cycle_with F H wy =
  Ok (layout ord2ymd F H (winter_ord wy - 21) (summer_ord (wy + 1) - 21)
        (winter_ord (wy + 1) - 21)).
Proof.
  intros HF HH Hfit H1 H2.
  pose proof (anchors wy H1 H2) as A. cbv zeta in A.
  unfold build_cycle_with.
  rewrite (winter_solstice_ok wy), (summer_solstice_ok (wy + 1)),
    (winter_solstice_ok (wy + 1)) by (unfold MINYEAR, MAXYEAR in *; lia).
  rewrite !bind_Ok. cbv beta zeta.
  assert (Ea : toordinal (mkdate wy 12 21) = winter_ord wy - 21 + 21)
    by (unfold winter_ord; lia).
  assert (Eb : toordinal (mkdate (wy + 1) 6 21) = summer_ord (wy + 1) - 21 + 21)
    by (unfold summer_ord; lia).
  assert (Ec : toordinal (mkdate (wy + 1) 12 21) = winter_ord (wy + 1) - 21 + 21)
    by (unfold winter_ord; lia).
  set (a := winter_ord wy - 21) in *.
  set (b := summer_ord (wy + 1) - 21) in *.
  set (c := winter_ord (wy + 1) - 21) in *.
  clearbody a b c. unfold MAXORDINAL in A.
  repeat (run_days
    ltac:(rewrite ?Ea, ?Eb, ?Ec, ?toordinal_ord2ymd; unfold MAXORDINAL; lia);
    rewrite ?Ea, ?Eb, ?Ec, ?toordinal_ord2ymd).
  repeat (rewrite add_keeps
    by (rewrite ?toordinal_ord2ymd; first [lia | apply wf_day_ord2ymd])).
  cbn [app]. unfold layout. cbv beta zeta.
  apply (f_equal (@Ok (list phase))).
  repeat (apply (f_equal2 cons); [apply phase_ord_eq; lia|]).
  reflexivity.
Qed.

(** ** The display declination *)

Lemma days_of_year_listed doy :
  1 <= doy <= 366 -> In doy (map Z.of_nat (seq 1 366)).
Proof.
  intros H. apply in_map_iff. exists (Z.to_nat doy).
  split; [lia|]. apply in_seq. lia.
Qed.

(** On a day of the year, the conversion of [doy - 81] is exact and the
    argument of [math.sin] in [solar_declination] is finite. *)
Lemma sin_argument_finite doy :
  1 <= doy <= 366 ->
  float_of_int (doy - 81) = Ok (of_exact_int (doy - 81)) /\
  is_finite
    (radians (fmul (fdiv (of_exact_int 360) (of_exact_int 365))
                (of_exact_int (doy - 81)))) = true.
Proof.
  intros H. apply days_of_year_listed in H.
  assert (Hall :
    forallb
      (fun doy =>
         negb (is_inf (of_exact_int (doy - 81))) &&
         is_finite
           (radians (fmul (fdiv (of_exact_int 360) (of_exact_int 365))
                       (of_exact_int (doy - 81)))))
      (map Z.of_nat (seq 1 366)) = true) by (vm_compute; reflexivity).
  rewrite forallb_forall in Hall. specialize (Hall doy H).
  apply andb_true_iff in Hall as [Hint Hfin].
  split; [|exact Hfin].
  unfold float_of_int. apply negb_true_iff in Hint. now rewrite Hint.
Qed.

Lemma math_sin_finite (sin : float -> float) x :
  is_finite (sin x) = true -> math_sin sin x = Ok (sin x).
Proof.
  unfold math_sin, math_1. now destruct (sin x).
Qed.

Lemma tm_yday_range d : wf_day d -> 1 <= tm_yday d <= 366.
Proof.
  unfold wf_day, tm_yday, days_before_month, days_in_month.
  destruct d as [y m dd]. cbn [year month day]. intros [Hm Hd].
  month_cases m; destruct (is_leap y);
    cbn -[Z.add Z.le] in Hd |- *; lia.
Qed.

(** * Part III: the claims *)

(** C1, as the code has it: for every date from 0002-01-01 through
    9999-11-29, [find_phase] returns a phase, the phase holds the date, and
    no other phase of any cycle that [build_cycle] returns holds it; for the
    dates before and after those, [find_phase] raises [ValueError], the
    solstices of year 0 or of year 10000 not being dates; for no date does it
    reach its last line and raise [RuntimeError]. *)
Theorem find_phase_one_phase (d : date) :
  valid d = true ->
  (date_le FIRST_DAY d = true -> date_le d LAST_DAY = true ->
   exists ph,
     find_phase d = Ok ph /\ contains d ph = true /\
     forall wy l ph',
       build_cycle wy = Ok l -> In ph' l -> contains d ph' = true ->
       ph' = ph) /\
  (date_lt d FIRST_DAY = true \/ date_gt d LAST_DAY = true ->
   find_phase d = Raise ValueError) /\
  find_phase d <> Raise RuntimeError.
Proof.
  intros Hv. pose proof (valid_inv d Hv) as [Hy Hd].
  assert (Hf : wf_day FIRST_DAY) by (apply (valid_inv FIRST_DAY); reflexivity).
  assert (Hl : wf_day LAST_DAY) by (apply (valid_inv LAST_DAY); reflexivity).
  rewrite !date_le_toordinal, date_lt_toordinal, date_gt_toordinal
    by assumption.
  rewrite !Z.leb_le, !Z.ltb_lt.
  split; [|split].
  - intros Hlo Hhi.
    destruct (find_phase_run d Hv (conj Hlo Hhi))
      as (wy & ph & [H1 H2] & Hscan & Hfind).
    exists ph. split; [exact Hfind|].
    split; [exact (proj2 (scan_cycle_Some _ _ _ Hscan))|].
    intros wy' l ph' Hb Hin Hc.
    apply build_cycle_inv in Hb as [[H1' H2'] ->].
    exact (phase_of_day_unique d wy wy' ph ph' H1 H2 H1' H2' Hd Hscan Hin Hc).
  - intros Hout. exact (find_phase_fail d Hv Hout).
  - destruct (Z_lt_dec (toordinal d) (toordinal FIRST_DAY)) as [Hlo|Hlo];
      [rewrite find_phase_fail by auto; discriminate|].
    destruct (Z_lt_dec (toordinal LAST_DAY) (toordinal d)) as [Hhi|Hhi];
      [rewrite find_phase_fail by auto; discriminate|].
    destruct (find_phase_run d Hv) as (wy & ph & _ & _ & Hfind); [lia|].
    rewrite Hfind. discriminate.
Qed.

Lemma find_phase_one_phase_witness :
  exists ph,
    find_phase (mkdate 2025 6 21) = Ok ph /\
    contains (mkdate 2025 6 21) ph = true.
Proof.
  destruct (find_phase_one_phase (mkdate 2025 6 21) eq_refl) as (Hin & _ & _).
  destruct (Hin eq_refl eq_refl) as (ph & Hfind & Hc & _).
  exists ph. split; [exact Hfind|exact Hc].
Defined.

(** C1 fails as stated: on a day of year 1 the cycle of winter year 0 is
    asked for, and no phase is returned. *)
Lemma find_phase_year_one_raises :
  valid (mkdate 1 6 21) = true /\
  find_phase (mkdate 1 6 21) = Raise ValueError /\
  ~ (exists ph, find_phase (mkdate 1 6 21) = Ok ph).
Proof.
  split; [reflexivity|]. split; [vm_compute; reflexivity|].
  intros [ph H]. vm_compute in H. discriminate H.
Qed.

(** C2: in the list returned by [build_cycle], each phase starts the day
    after the one before it ends, no two phases overlap, and no phase starts
    after its end; the list is returned, with its ten phases, for every
    winter year from [MINYEAR] to [MAXYEAR - 1], the years for which the
    solstices of the year and of the next one exist as dates. *)
Theorem build_cycle_gapless (wy : Z) :
  (MINYEAR <= wy < MAXYEAR ->
   exists l, build_cycle wy = Ok l /\ List.length l = 10%nat) /\
  (forall l, build_cycle wy = Ok l ->
     (forall i p q,
        nth_error l i = Some p -> nth_error l (S i) = Some q ->
        plus_days (end_ p) 1 = Ok (start q)) /\
     (forall i j p q,
        (i < j)%nat -> nth_error l i = Some p -> nth_error l j = Some q ->
        date_lt (end_ p) (start q) = true) /\
     (forall p, In p l -> date_le (start p) (end_ p) = true)).
Proof.
  split.
  - intros Hwy. exists (cycle_of wy).
    split; [apply build_cycle_ok; lia|reflexivity].
  - intros l Hl. apply build_cycle_inv in Hl as [[H1 H2] ->].
    pose proof (anchors_apart wy H1 H2) as A.
    pose proof (proj1 (Forall_forall _ _) (wf_cycle_of wy)) as W.
    repeat split.
    + intros i p q.
      exact (contiguous_phases_at ord2ymd (fun n => eq_refl) _ _ _ i p q A).
    + intros i j p q Hij Hp Hq.
      pose proof (ordered_phases_at ord2ymd (fun n => eq_refl) _ _ _
                    i j p q A Hij Hp Hq) as Ho.
      apply nth_error_In, W in Hp, Hq.
      rewrite date_lt_toordinal by (apply Hp || apply Hq).
      apply Z.ltb_lt; lia.
    + intros p Hp.
      pose proof (nondegenerate_phases_at ord2ymd (fun n => eq_refl) _ _ _
                    p A Hp) as Ho.
      apply W in Hp. rewrite date_le_toordinal by apply Hp.
      apply Z.leb_le; lia.
Qed.

Lemma build_cycle_gapless_witness :
  exists l, build_cycle 2024 = Ok l /\ List.length l = 10%nat /\
  (forall i p q,
     nth_error l i = Some p -> nth_error l (S i) = Some q ->
     plus_days (end_ p) 1 = Ok (start q)) /\
  (forall i j p q,
     (i < j)%nat -> nth_error l i = Some p -> nth_error l j = Some q ->
     date_lt (end_ p) (start q) = true) /\
  (forall p, In p l -> date_le (start p) (end_ p) = true).
Proof.
  destruct (build_cycle_gapless 2024) as [Hex Hall].
  destruct Hex as (l & Hl & Hlen); [unfold MINYEAR, MAXYEAR; lia|].
  exists l. split; [exact Hl|]. split; [exact Hlen|]. exact (Hall l Hl).
Defined.

(** C3: in the cycle built for a winter year, a Hard phase spans 42 days,
    from 21 days before its solstice (December 21 of the winter year, June
    21 of the next year) through 20 days after it, and a Transit phase that
    is not variable spans 42 days; the cycle has its two Hard phases for
    every winter year from [MINYEAR] to [MAXYEAR - 1]; the Winter Hard phase
    of winter year 2024 runs from 2024-11-30 through 2025-01-10. *)
Theorem hard_and_fixed_phases_span_42 :
  (forall wy l ph, build_cycle wy = Ok l -> In ph l ->
     (kind ph = "hard"%string ->
      total_days ph = 42 /\
      exists sol,
        (season ph = "Winter"%string /\ sol = mkdate wy 12 21 \/
         season ph = "Summer"%string /\ sol = mkdate (wy + 1) 6 21) /\
        minus_days sol 21 = Ok (start ph) /\
        plus_days sol 20 = Ok (end_ ph)) /\
     (kind ph = "transit"%string -> variable ph = false ->
      total_days ph = 42)) /\
  (forall wy, MINYEAR <= wy < MAXYEAR ->
     exists l wh sh,
       build_cycle wy = Ok l /\ filter is_hard l = [wh; sh] /\
       name wh = "Winter Hard"%string /\ name sh = "Summer Hard"%string) /\
  (exists rest,
     build_cycle 2024 =
     Ok (mkphase "Winter Hard" "Winter" "hard" (mkdate 2024 11 30)
           (mkdate 2025 1 10) None false :: rest)).
Proof.
  split; [|split].
  - intros wy l ph Hl Hin. apply build_cycle_inv in Hl as [[H1 H2] ->].
    pose proof (anchors wy H1 H2) as A. cbv zeta in A.
    destruct (fixed_phases_at ord2ymd (fun n => eq_refl) _ _ _ ph Hin)
      as [Hhard Hfixed].
    split; [|exact Hfixed].
    intros Hk. destruct (Hhard Hk) as [Hdays Hsol]. split; [exact Hdays|].
    destruct Hsol as [(Hse & Hs & He)|(Hse & Hs & He)]; rewrite Hs, He.
    + exists (mkdate wy 12 21). split; [left; split; [exact Hse|reflexivity]|].
      rewrite minus_days_ok, plus_days_ok
        by (fold (winter_ord wy); unfold MAXORDINAL in *; lia).
      fold (winter_ord wy). split; do 2 f_equal; lia.
    + exists (mkdate (wy + 1) 6 21).
      split; [right; split; [exact Hse|reflexivity]|].
      rewrite minus_days_ok, plus_days_ok
        by (fold (summer_ord (wy + 1)); unfold MAXORDINAL in *; lia).
      fold (summer_ord (wy + 1)). split; do 2 f_equal; lia.
  - intros wy Hwy. rewrite build_cycle_ok by lia.
    eexists. do 2 eexists. split; [reflexivity|].
    unfold cycle_of, cycle_at. rewrite hard_phases_at.
    split; [reflexivity|]. split; reflexivity.
  - vm_compute. eexists. reflexivity.
Qed.

Lemma hard_and_fixed_phases_span_42_witness :
  total_days
    (mkphase "Winter Hard" "Winter" "hard" (mkdate 2024 11 30)
       (mkdate 2025 1 10) None false) = 42.
Proof.
  destruct hard_and_fixed_phases_span_42 as (Hspan & _ & (rest & Hrest)).
  exact (proj1 (proj1 (Hspan 2024 _ _ Hrest (or_introl eq_refl)) eq_refl)).
Defined.

(** C4: whatever the two block lengths, a variable phase of the built cycle
    ends 22 days before the solstice that follows it (June 21 of the next
    year for Summer Transit 2, December 21 of the next year for Winter
    Transit 2), the day before the Hard phase of that solstice starts, and a
    Hard phase starts 21 days before its solstice; with the lengths of the
    program the cycle has exactly these two variable phases. *)
Theorem variable_phases_end_before_hard :
  (forall fixed_days hard_days wy l ph,
     build_cycle_with fixed_days hard_days wy = Ok l -> In ph l ->
     (variable ph = true ->
      exists sol hard_start,
        (season ph = "Summer"%string /\ sol = mkdate (wy + 1) 6 21 \/
         season ph = "Winter"%string /\ sol = mkdate (wy + 1) 12 21) /\
        minus_days sol 21 = Ok hard_start /\
        minus_days sol 22 = Ok (end_ ph) /\
        plus_days (end_ ph) 1 = Ok hard_start) /\
     (kind ph = "hard"%string ->
      exists sol,
        (season ph = "Winter"%string /\ sol = mkdate wy 12 21 \/
         season ph = "Summer"%string /\ sol = mkdate (wy + 1) 6 21) /\
        minus_days sol 21 = Ok (start ph))) /\
  (forall wy, MINYEAR <= wy < MAXYEAR ->
     exists l st2 wt2,
       build_cycle wy = Ok l /\ filter variable l = [st2; wt2] /\
       name st2 = "Summer Transit 2"%string /\
       name wt2 = "Winter Transit 2"%string /\
       pos wt2 = Some "before"%string).
Proof.
  split.
  - intros fixed_days hard_days wy l ph Hl Hin.
    destruct (build_cycle_with_members _ _ _ _ Hl)
      as (whs & shs & nwhs & Ewhs & Eshs & Enwhs & Hall).
    destruct (Hall ph Hin) as [_ Hshape]. unfold member_shape in Hshape.
    split.
    + intros Hv.
      destruct Hshape as [(_ & Hv' & _)|[(_ & Hv')|(_ & _ & Hend)]];
        try congruence.
      destruct Hend as [[Hse He]|[Hse He]].
      * exists (mkdate (wy + 1) 6 21), shs.
        split; [left; split; [exact Hse|reflexivity]|].
        split; [exact Eshs|]. exact (minus_days_twice _ _ _ Eshs He).
      * exists (mkdate (wy + 1) 12 21), nwhs.
        split; [right; split; [exact Hse|reflexivity]|].
        split; [exact Enwhs|]. exact (minus_days_twice _ _ _ Enwhs He).
    + intros Hk.
      destruct Hshape as [(_ & _ & Hst)|[(Hk' & _)|(Hk' & _)]];
        try (rewrite Hk in Hk'; discriminate Hk').
      destruct Hst as [[Hse Hs]|[Hse Hs]]; rewrite Hs.
      * exists (mkdate wy 12 21).
        split; [left; split; [exact Hse|reflexivity]|exact Ewhs].
      * exists (mkdate (wy + 1) 6 21).
        split; [right; split; [exact Hse|reflexivity]|exact Eshs].
  - intros wy Hwy. rewrite build_cycle_ok by lia.
    eexists. do 2 eexists. split; [reflexivity|].
    unfold cycle_of, cycle_at. rewrite variable_phases_at.
    split; [reflexivity|]. repeat split.
Qed.

Lemma variable_phases_end_before_hard_witness :
  exists l st2 wt2,
    build_cycle 2024 = Ok l /\ filter variable l = [st2; wt2] /\
    minus_days (mkdate 2025 6 21) 22 = Ok (end_ st2) /\
    minus_days (mkdate 2025 12 21) 22 = Ok (end_ wt2).
Proof.
  destruct variable_phases_end_before_hard as [Hany Hex].
  exists
    [ mkphase "Winter Hard" "Winter" "hard" (mkdate 2024 11 30)
        (mkdate 2025 1 10) None false;
      mkphase "Winter Transit 1" "Winter" "transit" (mkdate 2025 1 11)
        (mkdate 2025 2 21) (Some "after"%string) false;
      mkphase "Winter Transit 2" "Winter" "transit" (mkdate 2025 2 22)
        (mkdate 2025 4 4) (Some "after"%string) false;
      mkphase "Summer Transit 1" "Summer" "transit" (mkdate 2025 4 5)
        (mkdate 2025 5 16) None false;
      mkphase "Summer Transit 2" "Summer" "transit" (mkdate 2025 5 17)
        (mkdate 2025 5 30) None true;
      mkphase "Summer Hard" "Summer" "hard" (mkdate 2025 5 31)
        (mkdate 2025 7 11) None false;
      mkphase "Summer Transit 1" "Summer" "transit" (mkdate 2025 7 12)
        (mkdate 2025 8 22) None false;
      mkphase "Summer Transit 2" "Summer" "transit" (mkdate 2025 8 23)
        (mkdate 2025 10 3) None false;
      mkphase "Winter Transit 1" "Winter" "transit" (mkdate 2025 10 4)
        (mkdate 2025 11 14) (Some "before"%string) false;
      mkphase "Winter Transit 2" "Winter" "transit" (mkdate 2025 11 15)
        (mkdate 2025 11 29) (Some "before"%string) true ].
  do 2 eexists.
  assert (Hl : build_cycle_with FIXED_DAYS HARD_DAYS 2024 = Ok _)
    by (vm_compute; reflexivity).
  split; [exact Hl|]. split; [reflexivity|].
  split.
  - destruct (proj1 (Hany _ _ _ _ _ Hl
                (or_intror (or_intror (or_intror (or_intror
                   (or_introl eq_refl)))))) eq_refl)
      as (sol & hs & [[_ ->]|[Hse _]] & _ & Hend & _);
      [exact Hend|discriminate Hse].
  - destruct (proj1 (Hany _ _ _ _ _ Hl
                (or_intror (or_intror (or_intror (or_intror (or_intror
                   (or_intror (or_intror (or_intror (or_intror
                      (or_introl eq_refl))))))))))) eq_refl)
      as (sol & hs & [[Hse _]|[_ ->]] & _ & Hend & _);
      [discriminate Hse|exact Hend].
Defined.

(** C5, as the code has it: for every date of the years 2 to 9998,
    [last_next_solstice] returns two solstices [last] and [next] with
    [last <= d < next], 182 or 183 days apart; for the dates of year 1 and of
    year 9999 it raises [ValueError], a solstice of year 0 or of year 10000
    not being a date. *)
Theorem last_next_solstice_brackets (d : date) :
  valid d = true ->
  (MINYEAR < year d < MAXYEAR ->
   exists last next,
     last_next_solstice d = Ok (last, next) /\
     date_le last d = true /\ date_lt d next = true /\
     182 <= days_between next last <= 183) /\
  (year d = MINYEAR \/ year d = MAXYEAR ->
   last_next_solstice d = Raise ValueError).
Proof.
  intros Hv. split.
  - intros Hy. pose proof (valid_inv d Hv) as [_ Hd].
    destruct (last_next_solstice_run d Hv Hy)
      as (last & next & Hrun & Hl & Hn & Hord & Hgap).
    exists last, next. split; [exact Hrun|].
    rewrite date_le_toordinal, date_lt_toordinal by assumption.
    unfold days_between. rewrite Z.leb_le, Z.ltb_lt. lia.
  - intros [Hy|Hy]; unfold last_next_solstice; rewrite Hy.
    + rewrite (date_new_out_of_range (MINYEAR - 1))
        by (unfold MINYEAR, MAXYEAR; lia).
      apply bind_Raise.
    + rewrite !date_new_solstice_ok by (unfold MINYEAR, MAXYEAR; lia).
      rewrite !bind_Ok.
      rewrite (date_new_out_of_range (MAXYEAR + 1))
        by (unfold MINYEAR, MAXYEAR; lia).
      apply bind_Raise.
Qed.

Lemma last_next_solstice_brackets_witness :
  exists last next,
    last_next_solstice (mkdate 2025 6 21) = Ok (last, next) /\
    date_le last (mkdate 2025 6 21) = true /\
    date_lt (mkdate 2025 6 21) next = true /\
    182 <= days_between next last <= 183.
Proof.
  apply (proj1 (last_next_solstice_brackets (mkdate 2025 6 21) eq_refl)).
  unfold MINYEAR, MAXYEAR. cbn [year]. lia.
Defined.

(** C5 fails as stated: on a day of year 1 the June solstice of year 0 is
    asked for, and nothing is returned. *)
Lemma last_next_solstice_year_one_raises :
  valid (mkdate 1 6 21) = true /\
  last_next_solstice (mkdate 1 6 21) = Raise ValueError /\
  ~ (exists r, last_next_solstice (mkdate 1 6 21) = Ok r).
Proof.
  split; [reflexivity|]. split; [reflexivity|].
  intros [r H]. discriminate H.
Qed.

(** C6: [solstice_name] is "Summer" for a date in June and "Winter" for a
    date in any other month; on 2025-06-21 the last solstice is 2025-06-21
    itself, its name is "Summer", and it is 0 days away. *)
Theorem solstice_name_and_summer_solstice_day :
  (forall d, month d = 6 -> solstice_name d = "Summer"%string) /\
  (forall d, month d <> 6 -> solstice_name d = "Winter"%string) /\
  (exists last next,
     last_next_solstice (mkdate 2025 6 21) = Ok (last, next) /\
     last = mkdate 2025 6 21 /\
     solstice_name last = "Summer"%string /\
     days_between (mkdate 2025 6 21) last = 0).
Proof.
  split; [|split].
  - intros d Hm. unfold solstice_name. now rewrite Hm.
  - intros d Hm. unfold solstice_name.
    destruct (Z.eqb_spec (month d) 6); [contradiction|reflexivity].
  - exists (mkdate 2025 6 21), (mkdate 2025 12 21).
    split; [vm_compute; reflexivity|]. repeat split.
Qed.

Lemma solstice_name_and_summer_solstice_day_witness :
  solstice_name (mkdate 2025 6 21) = "Summer"%string /\
  solstice_name (mkdate 2025 12 21) = "Winter"%string.
Proof.
  destruct solstice_name_and_summer_solstice_day as (Hs & Hw & _).
  split.
  - exact (Hs (mkdate 2025 6 21) eq_refl).
  - apply (Hw (mkdate 2025 12 21)). cbn [month]. lia.
Defined.

(** C7: in binary64 arithmetic, with a [sin] of the C library that is finite
    on finite arguments and has [sin(+0.0) = +0.0]: for every day of the
    year from 1 through 366, and so for the day of the year of every date,
    [solar_declination] raises nothing and returns
    [23.44 * sin(radians((360 / 365) * (doy - 81)))]; [sun_altitude] is
    [round(90 - lat + dec, 1)]; for day 81, which is March 22 of a year that
    is not a leap year, the declination is [+0.0], and the altitude that
    [data] computes at latitude 45.81 is the double [44.2]. *)
Theorem display_declination_and_altitude (sin : float -> float) :
  (forall x, is_finite x = true -> is_finite (sin x) = true) ->
  sin pos_zero = pos_zero ->
  (forall doy, 1 <= doy <= 366 ->
     solar_declination sin doy =
     Ok (fmul (decimal false 2344 2)
           (sin (radians (fmul (fdiv (of_exact_int 360) (of_exact_int 365))
                            (of_exact_int (doy - 81))))))) /\
  (forall d, valid d = true -> 1 <= tm_yday d <= 366) /\
  (forall lat dec,
     sun_altitude lat dec = round1 (fadd (fsub (of_exact_int 90) lat) dec)) /\
  solar_declination sin 81 = Ok pos_zero /\
  tm_yday (mkdate 2025 3 22) = 81 /\
  data_sun_altitude sin (mkdate 2025 3 22) = Ok (decimal false 442 1).
Proof.
  intros Hfin Hzero.
  assert (Hdec : forall doy, 1 <= doy <= 366 ->
     solar_declination sin doy =
     Ok (fmul (decimal false 2344 2)
           (sin (radians (fmul (fdiv (of_exact_int 360) (of_exact_int 365))
                            (of_exact_int (doy - 81))))))).
  { intros doy Hdoy. destruct (sin_argument_finite doy Hdoy) as [Hint Harg].
    unfold solar_declination. rewrite Hint, bind_Ok.
    rewrite math_sin_finite by (apply Hfin; exact Harg).
    now rewrite bind_Ok. }
  assert (H81 : solar_declination sin 81 = Ok pos_zero).
  { rewrite Hdec by lia.
    replace (radians (fmul (fdiv (of_exact_int 360) (of_exact_int 365))
                        (of_exact_int (81 - 81))))
      with pos_zero by (vm_compute; reflexivity).
    rewrite Hzero. reflexivity. }
  split; [exact Hdec|].
  split; [intros d Hv; apply tm_yday_range; now apply valid_inv|].
  split; [reflexivity|].
  split; [exact H81|].
  split; [reflexivity|].
  unfold data_sun_altitude.
  change (tm_yday (mkdate 2025 3 22)) with 81.
  rewrite H81, bind_Ok. vm_compute. reflexivity.
Qed.

Lemma display_declination_and_altitude_witness :
  solar_declination (fun x => x) 81 = Ok pos_zero /\
  data_sun_altitude (fun x => x) (mkdate 2025 3 22) =
  Ok (decimal false 442 1).
Proof.
  destruct (display_declination_and_altitude (fun x => x))
    as (_ & _ & _ & H81 & _ & Halt).
  - intros x Hx. exact Hx.
  - reflexivity.
  - split; [exact H81|exact Halt].
Defined.

(** C9: [add] leaves the list as it is when the phase starts after its
    end; so, whatever the winter year and the two block lengths, every phase
    of the list that [build_cycle] returns starts on or before its end, and
    when [build_cycle] raises, the exception is one of the date computations
    ([ValueError] or [OverflowError]); with blocks of 100 days the two
    variable phases of winter year 2024 are left out and eight phases are
    returned. *)
Theorem degenerate_phase_omitted :
  (forall nm se ki s e po va phases,
     date_gt s e = true -> add nm se ki s e po va phases = phases) /\
  (forall fixed_days hard_days wy l ph,
     build_cycle_with fixed_days hard_days wy = Ok l -> In ph l ->
     date_le (start ph) (end_ ph) = true) /\
  (forall fixed_days hard_days wy e,
     build_cycle_with fixed_days hard_days wy = Raise e ->
     e = ValueError \/ e = OverflowError) /\
  (exists l,
     build_cycle_with 100 42 2024 = Ok l /\ List.length l = 8%nat /\
     forall ph, In ph l -> variable ph = false).
Proof.
  split; [|split; [|split]].
  - intros nm se ki s e po va phases Hgt. unfold add. now rewrite Hgt.
  - intros fixed_days hard_days wy l ph Hl Hin.
    destruct (build_cycle_with_members _ _ _ _ Hl)
      as (? & ? & ? & _ & _ & _ & Hall).
    exact (proj1 (Hall ph Hin)).
  - exact build_cycle_with_raises.
  - exact degenerate_example.
Qed.

Lemma degenerate_phase_omitted_witness :
  add "Summer Transit 2" "Summer" "transit" (mkdate 2025 11 7)
    (mkdate 2025 5 30) None true [] = [] /\
  date_le (mkdate 2024 11 30) (mkdate 2025 1 10) = true /\
  (ValueError = ValueError \/ ValueError = OverflowError).
Proof.
  destruct degenerate_phase_omitted as (Hadd & Hin & Hraise & _).
  split; [|split].
  - exact (Hadd "Summer Transit 2"%string "Summer"%string "transit"%string
             (mkdate 2025 11 7) (mkdate 2025 5 30) None true [] eq_refl).
  - assert (Hl : build_cycle_with 100 42 2024 =
                 Ok (mkphase "Winter Hard" "Winter" "hard" (mkdate 2024 11 30)
                       (mkdate 2025 1 10) None false :: _))
      by (vm_compute; reflexivity).
    exact (Hin _ _ _ _ _ Hl (or_introl eq_refl)).
  - apply (Hraise 42 42 0). vm_compute. reflexivity.
Defined.

(** C10: when the phase found for a date is a Hard phase, the date is at
    most 41 days after the start of the phase, its week index is one of 0 to
    5, and the lookup of the week name in [HARD_WEEK_NAMES] returns a name
    (it does not raise [IndexError]). *)
Theorem hard_week_name_in_bounds (d : date) (ph : phase) :
  valid d = true -> find_phase d = Ok ph -> kind ph = "hard"%string ->
  0 <= day_index d ph <= 41 /\
  0 <= day_index d ph / WEEK <= 5 /\
  exists week_name,
    list_getitem HARD_WEEK_NAMES (day_index d ph / WEEK) = Ok week_name /\
    data_title d ph = Ok (season ph ++ " · " ++ week_name)%string.
Proof.
  intros Hv Hfind Hk.
  destruct (find_phase_inv d Hv ph Hfind) as (wy & [H1 H2] & Hin & Hc).
  pose proof (valid_inv d Hv) as [_ Hd].
  pose proof (proj1 (Forall_forall _ _) (wf_cycle_of wy) ph Hin) as Hw.
  apply contains_ordinals in Hc; auto.
  pose proof (hard_day_index_phases_at ord2ymd (fun n => eq_refl) _ _ _
                d ph Hin Hk Hc) as Hidx.
  split; [exact Hidx|].
  unfold data_title. rewrite Hk.
  change (String.eqb "hard" "hard") with true. cbv iota.
  generalize dependent (day_index d ph). intros idx Hidx.
  assert (Hwk : 0 <= idx / WEEK <= 5).
  { unfold WEEK. Z.div_mod_to_equations. lia. }
  split; [exact Hwk|].
  assert (Hcases : idx / WEEK = 0 \/ idx / WEEK = 1 \/ idx / WEEK = 2 \/
                   idx / WEEK = 3 \/ idx / WEEK = 4 \/ idx / WEEK = 5) by lia.
  repeat (destruct Hcases as [Hcases|Hcases]); rewrite Hcases;
    eexists; (split; [reflexivity|reflexivity]).
Qed.

Lemma hard_week_name_in_bounds_witness :
  let d := mkdate 2025 1 10 in
  let ph :=
    mkphase "Winter Hard" "Winter" "hard" (mkdate 2024 11 30)
      (mkdate 2025 1 10) None false in
  0 <= day_index d ph <= 41 /\
  0 <= day_index d ph / WEEK <= 5 /\
  exists week_name,
    list_getitem HARD_WEEK_NAMES (day_index d ph / WEEK) = Ok week_name /\
    data_title d ph = Ok (season ph ++ " · " ++ week_name)%string.
Proof.
  apply (hard_week_name_in_bounds (mkdate 2025 1 10));
    [reflexivity|vm_compute; reflexivity|reflexivity].
Defined.

(** * Part IV: further properties of the program *)

(** ** The cycle on the calendar *)

(** X1: for every winter year from 1 through 9998, [build_cycle] returns the
    ten phases on these calendar days: Winter Hard from November 30 of the
    winter year through January 10 of the next year, then, in that next
    year, Winter Transit 1 from January 11 through February 21, Winter
    Transit 2 from February 22 through April 4, Summer Transit 1 from April 5
    through May 16, Summer Transit 2 from May 17 through May 30, Summer Hard
    from May 31 through July 11, Summer Transit 1 from July 12 through
    August 22, Summer Transit 2 from August 23 through October 3, Winter
    Transit 1 from October 4 through November 14 and Winter Transit 2 from
    November 15 through November 29; when that next year is a leap year,
    April 4, April 5, May 16 and May 17 are one day earlier. *)
Theorem build_cycle_is_calendar (wy : Z) :
  MINYEAR <= wy < MAXYEAR -> build_cycle wy = Ok (calendar wy).
Proof. apply build_cycle_calendar. Qed.

Lemma build_cycle_is_calendar_witness :
  build_cycle 2023 = Ok (calendar 2023).
Proof.
  apply build_cycle_is_calendar. unfold MINYEAR, MAXYEAR. lia.
Defined.

(** X2: the cycles of two consecutive winter years meet: the day after the
    end of the last phase of the list built for one winter year is the start
    of the first phase of the list built for the next. *)
Theorem consecutive_cycles_meet (wy : Z) (l l' : list phase) (p q : phase) :
  build_cycle wy = Ok l -> build_cycle (wy + 1) = Ok l' ->
  nth_error l (List.length l - 1) = Some p -> nth_error l' 0 = Some q ->
  plus_days (end_ p) 1 = Ok (start q).
Proof.
  intros Hl Hl' Hp Hq.
  apply build_cycle_inv_calendar in Hl as [[H1 H2] ->].
  apply build_cycle_inv_calendar in Hl' as [[H1' H2'] ->].
  unfold calendar in Hp, Hq. cbv zeta in Hp, Hq.
  cbn [nth_error List.length Nat.sub] in Hp, Hq.
  injection Hp as <-. injection Hq as <-.
  cbn [start end_].
  pose proof (days_before_year_succ (wy + 1)) as S1.
  pose proof (leap_day_range (wy + 1)) as L1.
  pose proof (days_before_year_mono MINYEAR (wy + 1)) as M1.
  pose proof (days_before_year_mono (wy + 1 + 1) (MAXYEAR + 1)) as M2.
  rewrite days_before_year_MINYEAR, days_before_year_past_MAXYEAR in *.
  assert (E : toordinal (mkdate (wy + 1) 11 29) =
              days_before_year (wy + 1 + 1) - 32) by calendar_day.
  rewrite plus_days_ok
    by (rewrite ?E; unfold MINYEAR, MAXYEAR, MAXORDINAL in *; lia).
  f_equal. apply ord2ymd_is; [calendar_day|]. rewrite E. calendar_day.
Qed.

Lemma consecutive_cycles_meet_witness :
  plus_days (mkdate 2025 11 29) 1 = Ok (mkdate 2025 11 30).
Proof.
  assert (H1 : build_cycle 2024 = Ok (calendar 2024))
    by (vm_compute; reflexivity).
  assert (H2 : build_cycle (2024 + 1) = Ok (calendar 2025))
    by (vm_compute; reflexivity).
  assert (Hp : nth_error (calendar 2024) (List.length (calendar 2024) - 1) =
               Some (mkphase "Winter Transit 2" "Winter" "transit"
                       (mkdate 2025 11 15) (mkdate 2025 11 29)
                       (Some "before"%string) true))
    by (vm_compute; reflexivity).
  assert (Hq : nth_error (calendar 2025) 0 =
               Some (mkphase "Winter Hard" "Winter" "hard"
                       (mkdate 2025 11 30) (mkdate 2026 1 10) None false))
    by (vm_compute; reflexivity).
  exact (consecutive_cycles_meet 2024 _ _ _ _ H1 H2 Hp Hq).
Defined.

(** X3: the lengths in days ([total_days]) of the phases of a list that
    [build_cycle] returns are 42, 42, 42, 42, then 14 for the variable
    Summer Transit 2 (15 when the year after the winter year is a leap
    year), 42, 42, 42, 42, and 15 for the variable Winter Transit 2; they
    add up to the 365 or 366 days of one cycle. *)
Theorem phase_lengths (wy : Z) (l : list phase) :
  build_cycle wy = Ok l ->
  map total_days l =
  [42; 42; 42; 42; 14 + leap_day (wy + 1); 42; 42; 42; 42; 15] /\
  fold_right Z.add 0 (map total_days l) = 365 + leap_day (wy + 1).
Proof.
  intros Hl. apply build_cycle_inv_calendar in Hl as [[H1 H2] ->].
  assert (E : map total_days (calendar wy) =
    [42; 42; 42; 42; 14 + leap_day (wy + 1); 42; 42; 42; 42; 15]).
  { unfold calendar. cbv zeta. cbn [map]. unfold total_days, days_between.
    cbn [start end_].
    pose proof (days_before_year_succ wy) as S0.
    repeat (apply (f_equal2 cons); [calendar_day|]). reflexivity. }
  split; [exact E|]. rewrite E. cbn [fold_right]. lia.
Qed.

Lemma phase_lengths_witness :
  map total_days (calendar 2023) =
  [42; 42; 42; 42; 14 + leap_day (2023 + 1); 42; 42; 42; 42; 15] /\
  fold_right Z.add 0 (map total_days (calendar 2023)) =
  365 + leap_day (2023 + 1).
Proof. apply (phase_lengths 2023). vm_compute. reflexivity. Defined.

(** ** Any block lengths *)

(** X4: whatever the two block lengths, a list that [build_cycle] returns
    leaves no day out between the start of its winter Hard block (21 days
    before December 21 of the winter year) and the day before the start
    of the next one: each of these days lies in a phase of the list, also
    when [add] has dropped phases. *)
Theorem built_cycle_covers_its_span
    (fixed_days hard_days wy : Z) (l : list phase) (first next d : date) :
  build_cycle_with fixed_days hard_days wy = Ok l ->
  minus_days (mkdate wy 12 21) 21 = Ok first ->
  minus_days (mkdate (wy + 1) 12 21) 21 = Ok next ->
  valid d = true -> date_le first d = true -> date_lt d next = true ->
  exists ph, In ph l /\ contains d ph = true.
Proof.
  intros Hl Hf Hn Hv Hle Hlt. pose proof (valid_inv d Hv) as [_ Hd].
  apply minus_days_ord in Hf as [Ef Wf], Hn as [En Wn].
  rewrite date_le_toordinal in Hle by assumption.
  rewrite date_lt_toordinal in Hlt by assumption.
  apply Z.leb_le in Hle. apply Z.ltb_lt in Hlt.
  apply (build_cycle_with_covers _ _ _ _ d Hl Hd). lia.
Qed.

Lemma built_cycle_covers_its_span_witness :
  exists ph,
    In ph (calendar 2024) /\ contains (mkdate 2025 3 1) ph = true.
Proof.
  apply (built_cycle_covers_its_span 42 42 2024 (calendar 2024)
           (mkdate 2024 11 30) (mkdate 2025 11 30));
    vm_compute; reflexivity.
Defined.

(** X5: whatever the two block lengths, [find_phase] on a date never reaches
    its last line: when it raises, the exception comes from a date
    computation of [build_cycle] ([ValueError] or [OverflowError]), never
    the [RuntimeError] of the line after the loops. *)
Theorem find_phase_with_never_misses
    (fixed_days hard_days : Z) (d : date) :
  valid d = true ->
  (forall e, find_phase_with fixed_days hard_days d = Raise e ->
             e = ValueError \/ e = OverflowError) /\
  find_phase_with fixed_days hard_days d <> Raise RuntimeError.
Proof.
  intros Hv. split.
  - intros e. now apply find_phase_with_raises.
  - intros H.
    apply find_phase_with_raises in H as [H|H]; [discriminate..|exact Hv].
Qed.

Lemma find_phase_with_never_misses_witness :
  (forall e, find_phase_with 42 42 (mkdate 1 6 21) = Raise e ->
             e = ValueError \/ e = OverflowError) /\
  find_phase_with 42 42 (mkdate 1 6 21) <> Raise RuntimeError.
Proof.
  exact (find_phase_with_never_misses 42 42 (mkdate 1 6 21) eq_refl).
Defined.

(** X6: for block lengths of at least one day with
    [HARD_DAYS + 3 * FIXED_DAYS <= 181], and every winter year from 1 through
    9998, [build_cycle] returns ten phases, each starting the day after the
    one before it ends; its Hard phases last [HARD_DAYS] days, its Transit
    phases that are not variable last [FIXED_DAYS] days, and no phase starts
    after its end. *)
Theorem short_blocks_keep_ten_phases (fixed_days hard_days wy : Z) :
  1 <= fixed_days -> 1 <= hard_days ->
  hard_days + 3 * fixed_days <= 181 ->
  MINYEAR <= wy < MAXYEAR ->
  exists l,
    build_cycle_with fixed_days hard_days wy = Ok l /\
    List.length l = 10%nat /\
    (forall i p q,
       nth_error l i = Some p -> nth_error l (S i) = Some q ->
       plus_days (end_ p) 1 = Ok (start q)) /\
    (forall ph, In ph l ->
       (kind ph = "hard"%string -> total_days ph = hard_days) /\
       (kind ph = "transit"%string -> variable ph = false ->
        total_days ph = fixed_days) /\
       date_le (start ph) (end_ ph) = true).
Proof.
  intros HF HH Hfit Hwy.
  assert (H1 : MINYEAR <= wy) by lia.
  assert (H2 : wy + 1 <= MAXYEAR) by lia.
  pose proof (anchors wy H1 H2) as A. cbv zeta in A.
  eexists. split; [apply build_cycle_with_ok; assumption|].
  split; [reflexivity|]. split.
  - intros i p q.
    apply (contiguous_layout ord2ymd (fun n => eq_refl)); lia.
  - intros ph.
    apply (lengths_layout ord2ymd (fun n => eq_refl)); lia.
Qed.

Lemma short_blocks_keep_ten_phases_witness :
  exists l,
    build_cycle_with 30 20 2024 = Ok l /\ List.length l = 10%nat.
Proof.
  destruct (short_blocks_keep_ten_phases 30 20 2024)
    as (l & Hl & Hlen & _);
    [lia|lia|lia|unfold MINYEAR, MAXYEAR; lia|].
  exists l. split; assumption.
Defined.

(** ** The colour classes *)

(** X7: on every phase of a list that [build_cycle] returns, whatever the
    block lengths, [bar_class] and [bg_class] name the same season and kind
    as the phase, and [bg_class] ends in [after] or [before] as the [pos] of
    a Winter Transit phase says; for the lengths of the program, the ten
    bar classes and the ten background classes are the lists given. *)
Theorem colour_classes_agree :
  (forall fixed_days hard_days wy l ph,
     build_cycle_with fixed_days hard_days wy = Ok l -> In ph l ->
     colours_agree ph) /\
  (forall wy l, build_cycle wy = Ok l ->
     map bar_class l =
     [ "winter"; "winter-transit"; "winter-transit"; "summer-transit";
       "summer-transit"; "summer"; "summer-transit"; "summer-transit";
       "winter-transit"; "winter-transit" ]%string /\
     map bg_class l =
     [ "bg-winter-hard"; "bg-winter-transit-after";
       "bg-winter-transit-after"; "bg-summer-transit"; "bg-summer-transit";
       "bg-summer-hard"; "bg-summer-transit"; "bg-summer-transit";
       "bg-winter-transit-before"; "bg-winter-transit-before" ]%string).
Proof.
  split.
  - intros fixed_days hard_days wy l ph H Hin. invert_build H.
    unfold colours_agree.
    repeat (apply In_add in Hin as [Hin|[-> _]];
      [|cbn; tauto]).
    destruct Hin.
  - intros wy l Hl. apply build_cycle_inv_calendar in Hl as [_ ->].
    split; reflexivity.
Qed.

Lemma colour_classes_agree_witness :
  colours_agree
    (mkphase "Winter Hard" "Winter" "hard" (mkdate 2024 11 30)
       (mkdate 2025 1 10) None false).
Proof.
  destruct colour_classes_agree as [Hany _].
  apply (Hany 42 42 2024 (calendar 2024)).
  - vm_compute. reflexivity.
  - left. reflexivity.
Defined.

(** ** Progress within the phase *)

(** X8: for the phase that [find_phase] returns for a date, the day index
    that [data] computes is at least 0 and less than the length of the
    phase, and the two integers of the progress quotient, the day within the
    week over [WEEK] in a Hard phase and the day within the phase over its
    length otherwise, satisfy [1 <= numerator <= denominator]: the progress
    is more than 0 and at most 100 percent, and nothing is divided by
    zero. *)
Theorem progress_operands_in_range (d : date) (ph : phase) :
  valid d = true -> find_phase d = Ok ph ->
  0 <= day_index d ph < total_days ph /\
  1 <= fst (progress_operands d ph) <= snd (progress_operands d ph).
Proof.
  intros Hv Hfind.
  destruct (find_phase_ordinals d ph Hv Hfind) as [_ Hc].
  assert (Hidx : 0 <= day_index d ph < total_days ph)
    by (unfold day_index, total_days, days_between; lia).
  split; [exact Hidx|].
  unfold progress_operands. destruct (String.eqb (kind ph) "hard");
    cbn [fst snd]; [|lia].
  unfold WEEK. pose proof (Z.mod_pos_bound (day_index d ph) 7). lia.
Qed.

Lemma progress_operands_in_range_witness :
  let d := mkdate 2025 3 1 in
  let ph :=
    mkphase "Winter Transit 2" "Winter" "transit" (mkdate 2025 2 22)
      (mkdate 2025 4 4) (Some "after"%string) false in
  0 <= day_index d ph < total_days ph /\
  1 <= fst (progress_operands d ph) <= snd (progress_operands d ph).
Proof.
  apply (progress_operands_in_range (mkdate 2025 3 1));
    [reflexivity|vm_compute; reflexivity].
Defined.

(** X9: from one day to the next, when [find_phase] returns a phase for
    both: before the last day of the phase, the next day is in the same
    phase and its day index is one more; otherwise the day is the last day
    of its phase, and the next day is the first day of the phase found for
    it, with day index 0. *)
Theorem next_day_advances (d d' : date) (ph ph' : phase) :
  valid d = true -> plus_days d 1 = Ok d' ->
  find_phase d = Ok ph -> find_phase d' = Ok ph' ->
  (date_lt d (end_ ph) = true ->
   ph' = ph /\ day_index d' ph' = day_index d ph + 1) /\
  (date_lt d (end_ ph) = false ->
   d = end_ ph /\ start ph' = d' /\ day_index d' ph' = 0).
Proof.
  intros Hv Hplus Hfind Hfind'.
  pose proof (valid_inv d Hv) as [_ Hd].
  apply plus_days_inv in Hplus as (-> & _ & Hr).
  set (d' := ord2ymd (toordinal d + 1)) in *.
  assert (Hv' : valid d' = true) by (apply valid_ord2ymd; lia).
  assert (Hd' : wf_day d') by apply wf_day_ord2ymd.
  assert (Et : toordinal d' = toordinal d + 1) by apply toordinal_ord2ymd.
  clearbody d'.
  destruct (find_phase_scan d ph Hv Hfind) as (wy & [H1 H2] & Hscan).
  destruct (find_phase_scan d' ph' Hv' Hfind') as (wy' & [H1' H2'] & Hscan').
  destruct (scan_cycle_Some _ _ _ Hscan) as [Hin Hc].
  destruct (scan_cycle_Some _ _ _ Hscan') as [Hin' Hc'].
  pose proof (proj1 (Forall_forall _ _) (wf_cycle_of wy) ph Hin) as Hw.
  pose proof (proj1 (Forall_forall _ _) (wf_cycle_of wy') ph' Hin') as Hw'.
  pose proof (proj1 (contains_ordinals d ph Hd Hw) Hc) as Ho.
  pose proof (proj1 (contains_ordinals d' ph' Hd' Hw') Hc') as Ho'.
  rewrite date_lt_toordinal by (assumption || apply Hw).
  split.
  - intros Hlt. apply Z.ltb_lt in Hlt.
    assert (Hc2 : contains d' ph = true)
      by (apply contains_ordinals; auto; lia).
    pose proof (phase_of_day_unique d' wy' wy ph' ph H1' H2' H1 H2 Hd'
                  Hscan' Hin Hc2) as E.
    subst ph'. split; [reflexivity|].
    unfold day_index, days_between. lia.
  - intros Hge. apply Z.ltb_ge in Hge.
    assert (Hstart : toordinal (start ph') = toordinal d').
    { destruct (Z_le_dec (toordinal (start ph')) (toordinal d))
        as [Hle|Hgt]; [|lia].
      assert (Hc2 : contains d ph' = true)
        by (apply contains_ordinals; auto; lia).
      pose proof (phase_of_day_unique d wy wy' ph ph' H1 H2 H1' H2' Hd
                    Hscan Hin' Hc2) as E.
      subst ph'. lia. }
    split; [apply toordinal_inj; [assumption|apply Hw|lia]|].
    split; [apply toordinal_inj; [apply Hw'|assumption|lia]|].
    unfold day_index, days_between. lia.
Qed.

Lemma next_day_advances_witness :
  let d := mkdate 2025 1 10 in
  let d' := mkdate 2025 1 11 in
  let ph :=
    mkphase "Winter Hard" "Winter" "hard" (mkdate 2024 11 30)
      (mkdate 2025 1 10) None false in
  let ph' :=
    mkphase "Winter Transit 1" "Winter" "transit" (mkdate 2025 1 11)
      (mkdate 2025 2 21) (Some "after"%string) false in
  (date_lt d (end_ ph) = true ->
   ph' = ph /\ day_index d' ph' = day_index d ph + 1) /\
  (date_lt d (end_ ph) = false ->
   d = end_ ph /\ start ph' = d' /\ day_index d' ph' = 0).
Proof.
  apply (next_day_advances (mkdate 2025 1 10) (mkdate 2025 1 11));
    [reflexivity|vm_compute; reflexivity..].
Defined.

(** X10: on the last day of a Hard phase the progress quotient of [data] is
    [WEEK] over [WEEK] (100 percent); the day after is found in a Transit
    phase of the same season that starts on that day, where the quotient is
    1 over [FIXED_DAYS]. *)
Theorem hard_phase_last_day (d : date) (ph : phase) :
  valid d = true -> find_phase d = Ok ph -> kind ph = "hard"%string ->
  d = end_ ph ->
  progress_operands d ph = (WEEK, WEEK) /\
  exists d' ph',
    plus_days d 1 = Ok d' /\ find_phase d' = Ok ph' /\
    kind ph' = "transit"%string /\ season ph' = season ph /\
    start ph' = d' /\ progress_operands d' ph' = (1, FIXED_DAYS).
Proof.
  intros Hv Hfind Hk Hend.
  destruct (find_phase_hard d ph Hv Hfind Hk) as (wy & [H1 H2] & Hph).
  pose proof (days_before_year_succ wy) as S0.
  pose proof (days_before_year_succ (wy + 1)) as S1.
  pose proof (leap_day_range wy) as L0.
  pose proof (leap_day_range (wy + 1)) as L1.
  pose proof (days_before_year_mono MINYEAR wy) as M0.
  pose proof (days_before_year_mono (wy + 1) MAXYEAR) as M1.
  rewrite days_before_year_MINYEAR in M0.
  change (days_before_year MAXYEAR) with 3651694 in M1.
  unfold MINYEAR, MAXYEAR in *.
  assert (Hcal : forall q, In q (calendar wy) -> In q (cycle_of wy))
    by (intros q; rewrite cycle_of_calendar
          by (unfold MINYEAR, MAXYEAR; lia); auto).
  destruct Hph as [-> | ->]; cbn [end_] in Hend; subst d.
  - split.
    { unfold progress_operands, day_index, days_between.
      cbn [kind start String.eqb Ascii.eqb Bool.eqb].
      replace (toordinal (mkdate (wy + 1) 1 10) - toordinal (mkdate wy 11 30))
        with 41 by calendar_day. reflexivity. }
    exists (mkdate (wy + 1) 1 11),
      (mkphase "Winter Transit 1" "Winter" "transit" (mkdate (wy + 1) 1 11)
         (mkdate (wy + 1) 2 21) (Some "after"%string) false).
    assert (E : toordinal (mkdate (wy + 1) 1 10) + 1 =
                toordinal (mkdate (wy + 1) 1 11)) by calendar_day.
    assert (E0 : toordinal (mkdate (wy + 1) 1 11) =
                 days_before_year (wy + 1) + 11) by calendar_day.
    split.
    { rewrite plus_days_ok by (rewrite ?E, ?E0; unfold MAXORDINAL; lia).
      f_equal. apply ord2ymd_is; [calendar_day|lia]. }
    split.
    { apply (find_phase_of_member _ wy);
        try (unfold MINYEAR, MAXYEAR; lia).
      - apply valid_intro; [unfold MINYEAR, MAXYEAR; cbn [year]; lia
                           |calendar_day].
      - apply Hcal. unfold calendar. cbn [In]. tauto.
      - apply contains_ordinals; [calendar_day|split; calendar_day|].
        cbn [start end_]. calendar_day.
      - change (toordinal FIRST_DAY) with 366. lia. }
    split; [reflexivity|]. split; [reflexivity|]. split; [reflexivity|].
    unfold progress_operands, day_index, total_days, days_between.
    cbn [kind start end_ String.eqb Ascii.eqb Bool.eqb].
    replace (toordinal (mkdate (wy + 1) 2 21) -
             toordinal (mkdate (wy + 1) 1 11) + 1) with 42 by calendar_day.
    rewrite Z.sub_diag. reflexivity.
  - split.
    { unfold progress_operands, day_index, days_between.
      cbn [kind start String.eqb Ascii.eqb Bool.eqb].
      replace (toordinal (mkdate (wy + 1) 7 11) -
               toordinal (mkdate (wy + 1) 5 31)) with 41 by calendar_day.
      reflexivity. }
    exists (mkdate (wy + 1) 7 12),
      (mkphase "Summer Transit 1" "Summer" "transit" (mkdate (wy + 1) 7 12)
         (mkdate (wy + 1) 8 22) None false).
    assert (E : toordinal (mkdate (wy + 1) 7 11) + 1 =
                toordinal (mkdate (wy + 1) 7 12)) by calendar_day.
    assert (E0 : toordinal (mkdate (wy + 1) 7 12) =
                 days_before_year (wy + 1) + 193 + leap_day (wy + 1))
      by calendar_day.
    split.
    { rewrite plus_days_ok by (rewrite ?E, ?E0; unfold MAXORDINAL; lia).
      f_equal. apply ord2ymd_is; [calendar_day|lia]. }
    split.
    { apply (find_phase_of_member _ wy);
        try (unfold MINYEAR, MAXYEAR; lia).
      - apply valid_intro; [unfold MINYEAR, MAXYEAR; cbn [year]; lia
                           |calendar_day].
      - apply Hcal. unfold calendar. cbn [In]. tauto.
      - apply contains_ordinals; [calendar_day|split; calendar_day|].
        cbn [start end_]. calendar_day.
      - change (toordinal FIRST_DAY) with 366. lia. }
    split; [reflexivity|]. split; [reflexivity|]. split; [reflexivity|].
    unfold progress_operands, day_index, total_days, days_between.
    cbn [kind start end_ String.eqb Ascii.eqb Bool.eqb].
    replace (toordinal (mkdate (wy + 1) 8 22) -
             toordinal (mkdate (wy + 1) 7 12) + 1) with 42 by calendar_day.
    rewrite Z.sub_diag. reflexivity.
Qed.

Lemma hard_phase_last_day_witness :
  let d := mkdate 2025 1 10 in
  let ph :=
    mkphase "Winter Hard" "Winter" "hard" (mkdate 2024 11 30)
      (mkdate 2025 1 10) None false in
  progress_operands d ph = (WEEK, WEEK) /\
  exists d' ph',
    plus_days d 1 = Ok d' /\ find_phase d' = Ok ph' /\
    kind ph' = "transit"%string /\ season ph' = season ph /\
    start ph' = d' /\ progress_operands d' ph' = (1, FIXED_DAYS).
Proof.
  apply (hard_phase_last_day (mkdate 2025 1 10));
    [reflexivity|vm_compute; reflexivity|reflexivity|reflexivity].
Defined.

(** X11: in a Hard phase found by [find_phase], the day index is 21 plus the
    days from the solstice of the phase (December 21 or June 21) to the
    date; the title of [data] is the season and a week name, a [Pre] week
    on the days before the solstice and a [Post] week from the solstice on;
    on the solstice itself the week is [Post-Peak Week] and the progress
    quotient is 1 over [WEEK]. *)
Theorem hard_weeks_follow_the_solstice (d : date) (ph : phase) :
  valid d = true -> find_phase d = Ok ph -> kind ph = "hard"%string ->
  day_index d ph = 21 + days_between d (hard_solstice ph) /\
  exists week_name,
    data_title d ph = Ok (season ph ++ " · " ++ week_name)%string /\
    (date_lt d (hard_solstice ph) = true -> In week_name PRE_WEEKS) /\
    (date_lt d (hard_solstice ph) = false -> In week_name POST_WEEKS) /\
    (d = hard_solstice ph ->
     week_name = "Post-Peak Week"%string /\
     progress_operands d ph = (1, WEEK)).
Proof.
  intros Hv Hfind Hk. pose proof (valid_inv d Hv) as [_ Hd].
  destruct (hard_day_index d ph Hv Hfind Hk) as (Hidx & Hw & Eidx).
  split; [exact Eidx|].
  rewrite date_lt_toordinal by assumption.
  unfold data_title, progress_operands. rewrite Hk.
  change (String.eqb "hard" "hard") with true. cbv iota.
  unfold days_between in Eidx.
  assert (Esol : d = hard_solstice ph -> day_index d ph = 21)
    by (intros E; rewrite <- E in Eidx; lia).
  generalize dependent (day_index d ph). intros idx Hidx Eidx Esol.
  assert (Hcases : idx / WEEK = 0 \/ idx / WEEK = 1 \/ idx / WEEK = 2 \/
                   idx / WEEK = 3 \/ idx / WEEK = 4 \/ idx / WEEK = 5)
    by (unfold WEEK; Z.div_mod_to_equations; lia).
  assert (Hpre : idx / WEEK < 3 <-> idx < 21)
    by (unfold WEEK; Z.div_mod_to_equations; lia).
  assert (Hmid : idx = 21 -> idx / WEEK = 3)
    by (unfold WEEK; Z.div_mod_to_equations; lia).
  repeat (destruct Hcases as [Hcases|Hcases]); rewrite Hcases in *;
    eexists; (split; [reflexivity|]);
    (split; [intros Hlt; apply Z.ltb_lt in Hlt;
             first [ exfalso; lia
                   | unfold PRE_WEEKS, POST_WEEKS; cbn [In]; tauto ]|]);
    (split; [intros Hge; apply Z.ltb_ge in Hge;
             first [ exfalso; lia
                   | unfold PRE_WEEKS, POST_WEEKS; cbn [In]; tauto ]|]);
    intros E; specialize (Esol E);
    first [ exfalso; lia | rewrite Esol; split; reflexivity ].
Qed.

Lemma hard_weeks_follow_the_solstice_witness :
  let d := mkdate 2025 6 21 in
  let ph :=
    mkphase "Summer Hard" "Summer" "hard" (mkdate 2025 5 31)
      (mkdate 2025 7 11) None false in
  day_index d ph = 21 + days_between d (hard_solstice ph) /\
  exists week_name,
    data_title d ph = Ok (season ph ++ " · " ++ week_name)%string /\
    (date_lt d (hard_solstice ph) = true -> In week_name PRE_WEEKS) /\
    (date_lt d (hard_solstice ph) = false -> In week_name POST_WEEKS) /\
    (d = hard_solstice ph ->
     week_name = "Post-Peak Week"%string /\
     progress_operands d ph = (1, WEEK)).
Proof.
  apply (hard_weeks_follow_the_solstice (mkdate 2025 6 21));
    [reflexivity|vm_compute; reflexivity|reflexivity].
Defined.

(** ** The solstice counters *)

(** X12: for a date of the years 2 through 9998, [last_next_solstice]
    returns: before June 21, December 21 of the year before and June 21 of
    the year; from June 21 and before December 21, June 21 and December 21
    of the year; from December 21 on, December 21 of the year and June 21 of
    the next year. *)
Theorem last_next_solstice_by_cases (d : date) :
  valid d = true -> MINYEAR < year d < MAXYEAR ->
  last_next_solstice d = Ok (solstice_pair d).
Proof. apply last_next_solstice_closed. Qed.

Lemma last_next_solstice_by_cases_witness :
  last_next_solstice (mkdate 2025 6 21) =
  Ok (mkdate 2025 6 21, mkdate 2025 12 21).
Proof.
  apply (last_next_solstice_by_cases (mkdate 2025 6 21) eq_refl).
  unfold MINYEAR, MAXYEAR. cbn [year]. lia.
Defined.

(** X13: for a date of the years 2 through 9998, the solstice counters of
    [data] are computed, with 0 to 182 days from the last solstice, 1 to 183
    days to the next one and 182 or 183 days in all; one of the two names is
    Summer and the other Winter; and the count from the last solstice is 0
    exactly on June 21 and on December 21. *)
Theorem solstice_counters_summary (d : date) :
  valid d = true -> MINYEAR < year d < MAXYEAR ->
  exists from_days last_name to_days next_name,
    solstice_counters d = Ok (from_days, last_name, to_days, next_name) /\
    0 <= from_days <= 182 /\ 1 <= to_days <= 183 /\
    182 <= from_days + to_days <= 183 /\
    (last_name = "Summer" /\ next_name = "Winter" \/
     last_name = "Winter" /\ next_name = "Summer")%string /\
    (from_days = 0 <-> is_solstice d = true).
Proof.
  intros Hv Hy. pose proof (valid_inv d Hv) as [_ Hd].
  unfold solstice_counters.
  rewrite last_next_solstice_closed by assumption. rewrite bind_Ok.
  cbv beta zeta.
  destruct (solstice_pair_bounds d Hv Hy) as (Hl & Hn & Hord & Hgap).
  cbv zeta in *.
  do 4 eexists. split; [reflexivity|].
  unfold days_between. repeat (split; [lia|]).
  split; [apply solstice_pair_names|].
  rewrite is_solstice_iff by assumption. split.
  - intros E. apply toordinal_inj; [assumption|assumption|lia].
  - intros E. rewrite <- E. lia.
Qed.

Lemma solstice_counters_summary_witness :
  let d := mkdate 2025 6 21 in
  exists from_days last_name to_days next_name,
    solstice_counters d = Ok (from_days, last_name, to_days, next_name) /\
    0 <= from_days <= 182 /\ 1 <= to_days <= 183 /\
    182 <= from_days + to_days <= 183 /\
    (last_name = "Summer" /\ next_name = "Winter" \/
     last_name = "Winter" /\ next_name = "Summer")%string /\
    (from_days = 0 <-> is_solstice d = true).
Proof.
  apply (solstice_counters_summary (mkdate 2025 6 21) eq_refl).
  unfold MINYEAR, MAXYEAR. cbn [year]. lia.
Defined.

(** X14: on a date, [find_phase] never needs the third cycle of its loop:
    it returns or raises as the same search over the cycles of the year
    before and of the year of the date alone. *)
Theorem find_phase_needs_two_cycles (d : date) :
  valid d = true ->
  find_phase d = find_phase_in d [year d - 1; year d].
Proof.
  intros Hv. rewrite <- find_phase_with_default.
  rewrite find_phase_with_two_cycles by assumption.
  cbn [find_phase_in_with find_phase_in]. unfold build_cycle.
  destruct (build_cycle_with FIXED_DAYS HARD_DAYS (year d - 1)) as [l1|e1];
    [|reflexivity].
  rewrite !bind_Ok. destruct (scan_cycle d l1); [reflexivity|].
  destruct (build_cycle_with FIXED_DAYS HARD_DAYS (year d)) as [l2|e2];
    [|reflexivity].
  rewrite !bind_Ok. destruct (scan_cycle d l2); reflexivity.
Qed.

Lemma find_phase_needs_two_cycles_witness :
  let d := mkdate 2025 6 21 in
  find_phase d = find_phase_in d [year d - 1; year d].
Proof.
  exact (find_phase_needs_two_cycles (mkdate 2025 6 21) eq_refl).
Defined.

(** X15: in a Hard phase found by [find_phase] for a date of the years 2
    through 9998, the solstice counters of [data] agree with the phase: from
    the solstice of the phase on, the last solstice has the season of the
    phase and lies [day_index - 21] days back; before it, the next solstice
    has the season of the phase and lies [21 - day_index] days ahead. *)
Theorem hard_phase_meets_solstice_counters (d : date) (ph : phase) :
  valid d = true -> MINYEAR < year d < MAXYEAR ->
  find_phase d = Ok ph -> kind ph = "hard"%string ->
  exists from_days last_name to_days next_name,
    solstice_counters d = Ok (from_days, last_name, to_days, next_name) /\
    (date_lt d (hard_solstice ph) = false ->
     last_name = season ph /\ from_days = day_index d ph - 21) /\
    (date_lt d (hard_solstice ph) = true ->
     next_name = season ph /\ to_days = 21 - day_index d ph).
Proof.
  intros Hv Hy Hfind Hk. pose proof (valid_inv d Hv) as [_ Hd].
  destruct (hard_day_index d ph Hv Hfind Hk) as (Hidx & Hw & Eidx).
  assert (Hse : season ph = "Winter"%string \/ season ph = "Summer"%string).
  { destruct (find_phase_hard d ph Hv Hfind Hk) as (wy & _ & [-> | ->]);
      cbn; tauto. }
  destruct (near_solstice d (hard_solstice ph) Hv Hy
              (is_solstice_hard_solstice ph)) as [Hlast Hnext].
  unfold solstice_counters.
  rewrite last_next_solstice_closed by assumption. rewrite bind_Ok.
  cbv beta zeta. do 4 eexists. split; [reflexivity|].
  rewrite date_lt_toordinal by assumption.
  unfold days_between in *. split.
  - intros Hge. apply Z.ltb_ge in Hge. rewrite Hlast by lia.
    split; [now apply solstice_name_hard_solstice|lia].
  - intros Hlt. apply Z.ltb_lt in Hlt. rewrite Hnext by lia.
    split; [now apply solstice_name_hard_solstice|lia].
Qed.

Lemma hard_phase_meets_solstice_counters_witness :
  let d := mkdate 2025 12 25 in
  let ph :=
    mkphase "Winter Hard" "Winter" "hard" (mkdate 2025 11 30)
      (mkdate 2026 1 10) None false in
  exists from_days last_name to_days next_name,
    solstice_counters d = Ok (from_days, last_name, to_days, next_name) /\
    (date_lt d (hard_solstice ph) = false ->
     last_name = season ph /\ from_days = day_index d ph - 21) /\
    (date_lt d (hard_solstice ph) = true ->
     next_name = season ph /\ to_days = 21 - day_index d ph).
Proof.
  apply (hard_phase_meets_solstice_counters (mkdate 2025 12 25));
    [reflexivity|unfold MINYEAR, MAXYEAR; cbn [year]; lia
    |vm_compute; reflexivity|reflexivity].
Defined.
